(** * Server-sent-events broker: registry, dispatcher and service

    A shallow embedding of the TypeScript sources

      - [src/types/sse.ts]                (data model),
      - [src/lib/sse/client-manager.ts]   (class [SSEClientManager]),
      - [src/lib/sse/event-dispatcher.ts] (class [SSEEventDispatcher]),
      - [src/lib/sse/sse-service.ts]      (class [SSEService]),

    followed by the properties of the specification that are stated about
    them.  Mutable objects become explicit state: a method of a class takes
    the object (and the part of the runtime it touches) and returns the
    result together with the new object.  A [throw] is the [Thrown] outcome.

    Conventions of the embedding:
      - a JavaScript [Map<string, V>] is a [gmap string V] and a
        [Set<string>] a [gset string]; JavaScript iterates both in insertion
        order, the finite maps in an order of their own, and no statement
        below depends on that order;
      - a [Date] is its [getTime()] value, an integer number of
        milliseconds; the numbers of the configuration and [retry] are
        integers;
      - the logger ([createServiceContext]) only reports, it is left out. *)

From Stdlib Require Import ZArith Ascii String DecimalString.
From stdpp Require Import gmap strings list fin_maps functions.

Local Open Scope string_scope.

(** ** The pieces of the JavaScript platform the sources call *)

Module JS.

(** The line feed and the double quote, as one-character strings. *)
Definition LF : ascii := ascii_of_nat 10.
Definition DQUOTE : ascii := ascii_of_nat 34.
Definition BACKSLASH : ascii := ascii_of_nat 92.
Definition nl : string := String LF EmptyString.
Definition dq : string := String DQUOTE EmptyString.

(** Truthiness of a value of type [string | undefined]: [undefined] and
    the empty string are falsy. *)
Definition truthy (o : option string) : option string :=
  match o with
  | Some EmptyString => None
  | Some s => Some s
  | None => None
  end.

(** [String(n)] for an integer [n] that JavaScript prints digit by digit
    (below 10^21 in absolute value). *)
Definition Number_toString (n : Z) : string :=
  NilZero.string_of_int (Z.to_int n).

(** [s.split("\n")]: the pieces of [s] between line feeds; never empty. *)
Fixpoint split_lines (s : string) : list string :=
  match s with
  | EmptyString => [EmptyString]
  | String c rest =>
      if Ascii.eqb c LF then EmptyString :: split_lines rest
      else match split_lines rest with
           | l :: ls => String c l :: ls
           | [] => [String c EmptyString]
           end
  end.

(** Number of line feeds of a string. *)
Fixpoint count_LF (s : string) : nat :=
  match s with
  | EmptyString => 0
  | String c rest => (if Ascii.eqb c LF then 1 else 0) + count_LF rest
  end.

(** [lines.join("\n")]. *)
Fixpoint join_lines (ls : list string) : string :=
  match ls with
  | [] => EmptyString
  | [l] => l
  | l :: ls' => l +:+ nl +:+ join_lines ls'
  end.

(** A JSON value, the payload of an event. *)
#[warnings="-register-all"]
Inductive JSON : Type :=
| JNull
| JBool (b : bool)
| JNumber (n : Z)
| JString (s : string)
| JArray (xs : list JSON)
| JObject (props : list (string * JSON)).

Definition hex_digit (n : nat) : ascii :=
  ascii_of_nat (if Nat.ltb n 10 then 48 + n else 87 + n).

(** How [JSON.stringify] writes one character inside a string literal. *)
Definition quote_char (c : ascii) : string :=
  let n := nat_of_ascii c in
  if Ascii.eqb c DQUOTE then String BACKSLASH dq
  else if Ascii.eqb c BACKSLASH then String BACKSLASH (String BACKSLASH EmptyString)
  else if Nat.eqb n 8 then String BACKSLASH "b"
  else if Nat.eqb n 9 then String BACKSLASH "t"
  else if Nat.eqb n 10 then String BACKSLASH "n"
  else if Nat.eqb n 12 then String BACKSLASH "f"
  else if Nat.eqb n 13 then String BACKSLASH "r"
  else if Nat.ltb n 32 then
    String BACKSLASH "u00" +:+
      String (hex_digit (n / 16)) (String (hex_digit (n mod 16)) EmptyString)
  else String c EmptyString.

Fixpoint quote_chars (s : string) : string :=
  match s with
  | EmptyString => EmptyString
  | String c rest => quote_char c +:+ quote_chars rest
  end.

Definition quote (s : string) : string := dq +:+ quote_chars s +:+ dq.

Definition comma_join (parts : list string) : string :=
  match parts with
  | [] => EmptyString
  | p :: ps => fold_left (fun acc q => acc +:+ "," +:+ q) ps p
  end.

(** [JSON.stringify(v)] without indentation. *)
Fixpoint JSON_stringify (v : JSON) : string :=
  match v with
  | JNull => "null"
  | JBool true => "true"
  | JBool false => "false"
  | JNumber n => Number_toString n
  | JString s => quote s
  | JArray xs => "[" +:+ comma_join (List.map JSON_stringify xs) +:+ "]"
  | JObject props =>
      "{" +:+
      comma_join
        (List.map (fun kv => quote (fst kv) +:+ ":" +:+ JSON_stringify (snd kv))
           props)
      +:+ "}"
  end.

End JS.

(** ** Data model ([src/types/sse.ts]) *)

(** A reference to a [ReadableStreamDefaultController]. *)
Definition ControllerRef := nat.

Record SSEClient : Type := mkClient {
  id : string;
  userId : option string;
  sessionId : option string;
  controller : ControllerRef;
  connectedAt : Z;
  lastPing : option Z
}.

Record SSEEvent : Type := mkEvent {
  type : string;
  data : JS.JSON;
  event_id : option string;
  retry : option Z
}.

Record SSEMessage : Type := mkMessage {
  msg_event : option string;
  msg_data : string;
  msg_id : option string;
  msg_retry : option Z
}.

Record ClientFilter : Type := mkFilter {
  filter_userId : option string;
  filter_sessionId : option string;
  clientIds : option (list string)
}.

Record SSEServiceConfig : Type := mkConfig {
  heartbeatInterval : Z;
  clientTimeoutMs : Z;
  maxClients : Z
}.

Record SSEMetrics : Type := mkSSEMetrics {
  activeConnections : nat;
  m_totalConnections : nat;
  m_eventsDispatched : nat;
  m_errors : nat
}.

(** ** The dispatcher ([src/lib/sse/event-dispatcher.ts]) *)

(** Truthiness of a value of type [number | undefined]: zero is falsy. *)
Definition truthy_number (o : option Z) : option Z :=
  match o with
  | Some n => if Z.eqb n 0 then None else Some n
  | None => None
  end.

Definition data_line (line : string) : string := "data: " +:+ line +:+ JS.nl.

Definition serialize_data (d : JS.JSON) : string :=
  match d with
  | JS.JString s => s
  | v => JS.JSON_stringify v
  end.

Definition message_of_event (event : SSEEvent) : SSEMessage :=
  {| msg_event := Some (type event);
     msg_data := serialize_data (data event);
     msg_id := JS.truthy (event_id event);
     msg_retry := truthy_number (retry event) |}.

Definition event_field (message : SSEMessage) : string :=
  match JS.truthy (msg_event message) with
  | Some t => "event: " +:+ t +:+ JS.nl
  | None => EmptyString
  end.

Definition id_field (message : SSEMessage) : string :=
  match JS.truthy (msg_id message) with
  | Some i => "id: " +:+ i +:+ JS.nl
  | None => EmptyString
  end.

Definition retry_field (message : SSEMessage) : string :=
  match truthy_number (msg_retry message) with
  | Some r => "retry: " +:+ JS.Number_toString r +:+ JS.nl
  | None => EmptyString
  end.

Definition formatSSEMessage (event : SSEEvent) : string :=
  let message := message_of_event event in
  let formatted := EmptyString in
  let formatted := formatted +:+ event_field message in
  let formatted := formatted +:+ id_field message in
  let formatted := formatted +:+ retry_field message in
  let dataLines := JS.split_lines (msg_data message) in
  let formatted :=
    fold_left (fun acc line => acc +:+ data_line line) dataLines formatted in
  formatted +:+ JS.nl.

(** *** Sinks

    The dispatcher and the registry use a controller only through
    [enqueue] and [close].  Either call may throw: [None].  A call that
    throws leaves the sink as it was. *)

Class SinkOps (S : Type) : Type := {
  enqueue : S → string → option S;
  close : S → option S
}.

(** What a JavaScript call yields: a value, or a thrown [Error]. *)
Inductive JSError : Type := Error (message : string).

Inductive Outcome (A : Type) : Type :=
| Returned (a : A)
| Thrown (e : JSError).
Arguments Returned {A} a.
Arguments Thrown {A} e.

Section Dispatcher.
Context {S : Type} `{SinkOps S}.

(** The controllers of the runtime, by reference. *)
Implicit Type σ : ControllerRef → S.

(** [sendEventToClient]: the [try] block formats the event and enqueues
    the text; the [catch] turns any throw into [false]. *)
Definition sendEventToClient (client : SSEClient) (event : SSEEvent) σ
  : bool * (ControllerRef → S) :=
  let message := formatSSEMessage event in
  match enqueue (σ (controller client)) message with
  | Some s' => (true, <[controller client := s']> σ)
  | None => (false, σ)
  end.

(** [clients.map((client) => this.sendEventToClient(client, event))]: the
    body of the callback has no [await], so the sends run one after the
    other, in the order of the array, and every promise is fulfilled. *)
Fixpoint send_each (clients : list SSEClient) (event : SSEEvent) σ
  : list bool * (ControllerRef → S) :=
  match clients with
  | [] => ([], σ)
  | client :: rest =>
      let '(ok, σ1) := sendEventToClient client event σ in
      let '(results, σ2) := send_each rest event σ1 in
      (ok :: results, σ2)
  end.

Definition sendEventToClients (clients : list SSEClient) (event : SSEEvent) σ
  : nat * (ControllerRef → S) :=
  let '(results, σ') := send_each clients event σ in
  let successCount := length (filter (λ value, value = true) results) in
  (successCount, σ').

End Dispatcher.

(** ** The registry ([src/lib/sse/client-manager.ts]) *)

Record Metrics : Type := mkMetrics {
  totalConnections : nat;
  eventsDispatched : nat;
  errors : nat
}.

Record SSEClientManager : Type := mkManager {
  clients : gmap string SSEClient;
  userClientMap : gmap string (gset string);
  sessionClientMap : gmap string (gset string);
  metrics : Metrics;
  config : SSEServiceConfig
}.

(** [new SSEClientManager(config)]. *)
Definition new_SSEClientManager (cfg : SSEServiceConfig) : SSEClientManager :=
  {| clients := ∅; userClientMap := ∅; sessionClientMap := ∅;
     metrics := {| totalConnections := 0; eventsDispatched := 0; errors := 0 |};
     config := cfg |}.

(** [if (!index.has(key)) index.set(key, new Set()); index.get(key)!.add(clientId)] *)
Definition index_add (key clientId : string) (index : gmap string (gset string))
  : gmap string (gset string) :=
  let index' :=
    match index !! key with
    | Some _ => index
    | None => <[key := ∅]> index
    end in
  alter (λ members, {[clientId]} ∪ members) key index'.

(** [const members = index.get(key); if (members) { members.delete(clientId);
    if (members.size === 0) index.delete(key) }] *)
Definition index_remove (key clientId : string) (index : gmap string (gset string))
  : gmap string (gset string) :=
  match index !! key with
  | Some members =>
      let members' := members ∖ {[clientId]} in
      if Nat.eqb (size members') 0 then delete key index
      else <[key := members']> index
  | None => index
  end.

Definition addClient (client : SSEClient) (m : SSEClientManager)
  : Outcome unit * SSEClientManager :=
  if (maxClients (config m) <=? Z.of_nat (size (clients m)))%Z then
    (Thrown (Error ("Maximum client limit reached: "
                      +:+ JS.Number_toString (maxClients (config m)))), m)
  else
    (Returned tt,
     {| clients := <[id client := client]> (clients m);
        userClientMap :=
          match JS.truthy (userId client) with
          | Some u => index_add u (id client) (userClientMap m)
          | None => userClientMap m
          end;
        sessionClientMap :=
          match JS.truthy (sessionId client) with
          | Some s => index_add s (id client) (sessionClientMap m)
          | None => sessionClientMap m
          end;
        metrics :=
          {| totalConnections := totalConnections (metrics m) + 1;
             eventsDispatched := eventsDispatched (metrics m);
             errors := errors (metrics m) |};
        config := config m |}).

Definition getClient (clientId : string) (m : SSEClientManager)
  : option SSEClient :=
  clients m !! clientId.

(** The loop [for (const clientId of ids) { const client =
    this.clients.get(clientId); if (client) clients.push(client) }]. *)
Definition resolve_ids (ids : list string) (m : SSEClientManager)
  : list SSEClient :=
  omap (λ clientId, clients m !! clientId) ids.

Definition getClientsByFilter (filter : ClientFilter) (m : SSEClientManager)
  : list SSEClient :=
  match clientIds filter with
  | Some ids => resolve_ids ids m
  | None =>
      let by_user :=
        match JS.truthy (filter_userId filter) with
        | Some u =>
            match userClientMap m !! u with
            | Some userClientIds => resolve_ids (elements userClientIds) m
            | None => []
            end
        | None => []
        end in
      let by_session :=
        match JS.truthy (filter_sessionId filter) with
        | Some s =>
            match sessionClientMap m !! s with
            | Some sessionClientIds => resolve_ids (elements sessionClientIds) m
            | None => []
            end
        | None => []
        end in
      by_user ++ by_session
  end.

Definition getAllClients (m : SSEClientManager) : list SSEClient :=
  (map_to_list (clients m)).*2.

Definition getClientCount (m : SSEClientManager) : nat := size (clients m).

Definition getMetrics (m : SSEClientManager) : SSEMetrics :=
  {| activeConnections := size (clients m);
     m_totalConnections := totalConnections (metrics m);
     m_eventsDispatched := eventsDispatched (metrics m);
     m_errors := errors (metrics m) |}.

Definition incrementEventsDispatched (m : SSEClientManager) : SSEClientManager :=
  {| clients := clients m; userClientMap := userClientMap m;
     sessionClientMap := sessionClientMap m;
     metrics :=
       {| totalConnections := totalConnections (metrics m);
          eventsDispatched := eventsDispatched (metrics m) + 1;
          errors := errors (metrics m) |};
     config := config m |}.

Definition incrementErrors (m : SSEClientManager) : SSEClientManager :=
  {| clients := clients m; userClientMap := userClientMap m;
     sessionClientMap := sessionClientMap m;
     metrics :=
       {| totalConnections := totalConnections (metrics m);
          eventsDispatched := eventsDispatched (metrics m);
          errors := errors (metrics m) + 1 |};
     config := config m |}.

Definition timeSinceLastPing (now : Z) (client : SSEClient) : Z :=
  match lastPing client with
  | Some ping => (now - ping)%Z
  | None => (now - connectedAt client)%Z
  end.

Definition is_stale (cfg : SSEServiceConfig) (now : Z) (client : SSEClient) : bool :=
  (clientTimeoutMs cfg <? timeSinceLastPing now client)%Z.

Section Registry.
Context {S : Type} `{SinkOps S}.
Implicit Type σ : ControllerRef → S.

(** [try { client.controller.close() } catch (error) { log }] *)
Definition close_controller (r : ControllerRef) σ : ControllerRef → S :=
  match close (σ r) with
  | Some s' => <[r := s']> σ
  | None => σ
  end.

Definition removeClient (clientId : string) (m : SSEClientManager) σ
  : bool * SSEClientManager * (ControllerRef → S) :=
  match clients m !! clientId with
  | None => (false, m, σ)
  | Some client =>
      (true,
       {| clients := delete clientId (clients m);
          userClientMap :=
            match JS.truthy (userId client) with
            | Some u => index_remove u clientId (userClientMap m)
            | None => userClientMap m
            end;
          sessionClientMap :=
            match JS.truthy (sessionId client) with
            | Some s => index_remove s clientId (sessionClientMap m)
            | None => sessionClientMap m
            end;
          metrics := metrics m;
          config := config m |},
       close_controller (controller client) σ)
  end.

(** [for (const clientId of ids) this.removeClient(clientId)] *)
Definition remove_each (ids : list string) (m : SSEClientManager) σ
  : SSEClientManager * (ControllerRef → S) :=
  foldl (λ st clientId, let '(_, m', σ') := removeClient clientId st.1 st.2 in (m', σ'))
        (m, σ) ids.

Definition cleanup (m : SSEClientManager) σ
  : SSEClientManager * (ControllerRef → S) :=
  let clientIds := (map_to_list (clients m)).*1 in
  remove_each clientIds m σ.

(** [removeStaleClients]; [now] is the value of [new Date()]. *)
Definition removeStaleClients (now : Z) (m : SSEClientManager) σ
  : nat * SSEClientManager * (ControllerRef → S) :=
  let staleClients :=
    (filter (λ entry, is_stale (config m) now entry.2 = true)
            (map_to_list (clients m))).*1 in
  let '(m', σ') := remove_each staleClients m σ in
  (length staleClients, m', σ').

End Registry.

(** ** The service ([src/lib/sse/sse-service.ts]) *)

(** The two periodic callbacks the service installs. *)
Inductive TimerKind : Type := HeartbeatLoop | CleanupLoop.

(** An interval of the event loop: which callback, and its period in
    milliseconds as the fraction [num / den]. *)
Record Interval : Type := mkInterval {
  callback : TimerKind;
  delay_num : Z;
  delay_den : Z
}.

(** The part of the runtime the service acts on: the controllers and the
    intervals that are set. *)
Record Runtime (S : Type) : Type := mkRuntime {
  controllers : ControllerRef → S;
  intervals : gmap nat Interval;
  nextTimerId : nat
}.
Arguments mkRuntime {S}.
Arguments controllers {S}.
Arguments intervals {S}.
Arguments nextTimerId {S}.

Record SSEService : Type := mkService {
  clientManager : SSEClientManager;
  svc_heartbeatInterval : option nat;
  svc_cleanupInterval : option nat;
  svc_config : SSEServiceConfig
}.

(** [NotificationOptions] of [src/lib/sse/utils.ts]. *)
Record NotificationOptions : Type := mkOptions {
  opt_userId : option string;
  opt_sessionId : option string;
  opt_clientIds : option (list string);
  priority : option string;
  persistent : option bool
}.

Section Service.
Context {S : Type} `{SinkOps S}.

Definition setInterval (i : Interval) (rt : Runtime S) : nat * Runtime S :=
  (nextTimerId rt,
   {| controllers := controllers rt;
      intervals := <[nextTimerId rt := i]> (intervals rt);
      nextTimerId := nextTimerId rt + 1 |}).

Definition clearInterval (t : nat) (rt : Runtime S) : Runtime S :=
  {| controllers := controllers rt;
     intervals := delete t (intervals rt);
     nextTimerId := nextTimerId rt |}.

Definition with_controllers (rt : Runtime S) (σ : ControllerRef → S) : Runtime S :=
  {| controllers := σ; intervals := intervals rt; nextTimerId := nextTimerId rt |}.

Definition with_manager (svc : SSEService) (m : SSEClientManager) : SSEService :=
  {| clientManager := m;
     svc_heartbeatInterval := svc_heartbeatInterval svc;
     svc_cleanupInterval := svc_cleanupInterval svc;
     svc_config := svc_config svc |}.

(** [this.heartbeatInterval = setInterval(..., this.config.heartbeatInterval)] *)
Definition startHeartbeat (svc : SSEService) (rt : Runtime S)
  : SSEService * Runtime S :=
  let '(t, rt') :=
    setInterval {| callback := HeartbeatLoop;
                   delay_num := heartbeatInterval (svc_config svc);
                   delay_den := 1 |} rt in
  ({| clientManager := clientManager svc;
      svc_heartbeatInterval := Some t;
      svc_cleanupInterval := svc_cleanupInterval svc;
      svc_config := svc_config svc |}, rt').

(** [this.cleanupInterval = setInterval(..., this.config.clientTimeoutMs / 2)] *)
Definition startCleanup (svc : SSEService) (rt : Runtime S)
  : SSEService * Runtime S :=
  let '(t, rt') :=
    setInterval {| callback := CleanupLoop;
                   delay_num := clientTimeoutMs (svc_config svc);
                   delay_den := 2 |} rt in
  ({| clientManager := clientManager svc;
      svc_heartbeatInterval := svc_heartbeatInterval svc;
      svc_cleanupInterval := Some t;
      svc_config := svc_config svc |}, rt').

(** [new SSEService(config)]. *)
Definition new_SSEService (cfg : SSEServiceConfig) (rt : Runtime S)
  : SSEService * Runtime S :=
  let svc :=
    {| clientManager := new_SSEClientManager cfg;
       svc_heartbeatInterval := None;
       svc_cleanupInterval := None;
       svc_config := cfg |} in
  let '(svc, rt) := startHeartbeat svc rt in
  startCleanup svc rt.

Definition service_removeClient (clientId : string) (svc : SSEService)
    (rt : Runtime S) : bool * SSEService * Runtime S :=
  let '(found, m, σ) := removeClient clientId (clientManager svc) (controllers rt) in
  (found, with_manager svc m, with_controllers rt σ).

(** [sendEvent], over the fan-out of the dispatcher it holds: [fanout] is
    what [this.eventDispatcher.sendEventToClients(clients, event)] settles
    to.  The [catch] counts the error and throws it again. *)
Definition sendEvent_with
    (fanout : list SSEClient → SSEEvent → (ControllerRef → S)
              → Outcome nat * (ControllerRef → S))
    (event : SSEEvent) (filter : option ClientFilter)
    (svc : SSEService) (rt : Runtime S)
  : Outcome nat * SSEService * Runtime S :=
  let clients :=
    match filter with
    | Some f => getClientsByFilter f (clientManager svc)
    | None => getAllClients (clientManager svc)
    end in
  if Nat.eqb (length clients) 0 then (Returned 0, svc, rt)
  else
    match fanout clients event (controllers rt) with
    | (Returned successCount, σ) =>
        (Returned successCount,
         with_manager svc (incrementEventsDispatched (clientManager svc)),
         with_controllers rt σ)
    | (Thrown error, σ) =>
        (Thrown error,
         with_manager svc (incrementErrors (clientManager svc)),
         with_controllers rt σ)
    end.

(** The fan-out of [SSEEventDispatcher]: it never throws. *)
Definition dispatcher_fanout (clients : list SSEClient) (event : SSEEvent)
    (σ : ControllerRef → S) : Outcome nat * (ControllerRef → S) :=
  let '(successCount, σ') := sendEventToClients clients event σ in
  (Returned successCount, σ').

Definition sendEvent := sendEvent_with dispatcher_fanout.

Definition broadcast (event : SSEEvent) := sendEvent event None.

Definition sendToUser (userId : string) (event : SSEEvent) :=
  sendEvent event
    (Some {| filter_userId := Some userId; filter_sessionId := None;
             clientIds := None |}).

Definition sendToSession (sessionId : string) (event : SSEEvent) :=
  sendEvent event
    (Some {| filter_userId := None; filter_sessionId := Some sessionId;
             clientIds := None |}).

Definition sendToClients (ids : list string) (event : SSEEvent) :=
  sendEvent event
    (Some {| filter_userId := None; filter_sessionId := None;
             clientIds := Some ids |}).

Definition service_getMetrics (svc : SSEService) : SSEMetrics :=
  getMetrics (clientManager svc).

Definition getActiveClientCount (svc : SSEService) : nat :=
  getClientCount (clientManager svc).

Definition shutdown (svc : SSEService) (rt : Runtime S)
  : SSEService * Runtime S :=
  let rt1 :=
    match svc_heartbeatInterval svc with
    | Some t => clearInterval t rt
    | None => rt
    end in
  let rt2 :=
    match svc_cleanupInterval svc with
    | Some t => clearInterval t rt1
    | None => rt1
    end in
  let '(m, σ) := cleanup (clientManager svc) (controllers rt2) in
  ({| clientManager := m;
      svc_heartbeatInterval := None;
      svc_cleanupInterval := None;
      svc_config := svc_config svc |},
   with_controllers rt2 σ).

Definition reset (svc : SSEService) (rt : Runtime S)
  : SSEService * Runtime S :=
  let '(m, σ) := cleanup (clientManager svc) (controllers rt) in
  let '(svc1, rt1) := startHeartbeat (with_manager svc m) (with_controllers rt σ) in
  startCleanup svc1 rt1.

(** [sseUtils.sendNotification(message, type, options)] of
    [src/lib/sse/utils.ts], on a service: the filter object is always
    built, from three fields of the options.  [now] is [Date.now()] and
    [timestamp] is [new Date().toISOString()]; [kind] is the parameter
    [type]. *)
Definition sendNotification (now : Z) (timestamp : string) (message : string)
    (kind : string) (options : NotificationOptions) :=
  let event :=
    {| type := "notification";
       data :=
         JS.JObject
           [("message", JS.JString message);
            ("type", JS.JString kind);
            ("priority", JS.JString (default "normal" (priority options)));
            ("persistent", JS.JBool (default false (persistent options)));
            ("timestamp", JS.JString timestamp)];
       event_id := Some ("notification-" +:+ JS.Number_toString now);
       retry := None |} in
  let filter :=
    {| filter_userId := opt_userId options;
       filter_sessionId := opt_sessionId options;
       clientIds := opt_clientIds options |} in
  sendEvent event (Some filter).

End Service.

(** The options [{}]: every field is [undefined]. *)
Definition no_options : NotificationOptions :=
  {| opt_userId := None; opt_sessionId := None; opt_clientIds := None;
     priority := None; persistent := None |}.

(** A filter object none of whose fields is set. *)
Definition unset_filter : ClientFilter :=
  {| filter_userId := None; filter_sessionId := None; clientIds := None |}.

(** ** A stream controller, for running the definitions

    A [ReadableStreamDefaultController] whose stream is readable accepts
    chunks and [close()]; once closed, both calls throw a [TypeError]. *)
Record StreamController : Type := mkController {
  ctl_open : bool;
  ctl_queue : list string
}.

#[export] Instance StreamController_ops : SinkOps StreamController := {|
  enqueue c chunk :=
    if ctl_open c
    then Some {| ctl_open := true; ctl_queue := ctl_queue c ++ [chunk] |}
    else None;
  close c :=
    if ctl_open c
    then Some {| ctl_open := false; ctl_queue := ctl_queue c |}
    else None
|}.

Definition open_controller : StreamController :=
  {| ctl_open := true; ctl_queue := [] |}.
Definition closed_controller : StreamController :=
  {| ctl_open := false; ctl_queue := [] |}.

(** The configuration of the process-wide service. *)
Definition defaultConfig : SSEServiceConfig :=
  {| heartbeatInterval := 30000; clientTimeoutMs := 120000; maxClients := 10000 |}.

(** ** Definitions used to state the properties *)

(** The concatenation of a list of strings. *)
Fixpoint concat_strings (parts : list string) : string :=
  match parts with
  | [] => EmptyString
  | p :: ps => p +:+ concat_strings ps
  end.

(** The message as the specification words it: an [event:] line when the
    type is present, an [id:] line when the id is present, a [retry:] line
    when the retry is present and not zero, one [data:] line for each line
    of the serialized payload, and one blank line. *)
Definition wire_event_line (event : SSEEvent) : string :=
  match type event with
  | EmptyString => EmptyString
  | t => "event: " +:+ t +:+ JS.nl
  end.

Definition wire_id_line (event : SSEEvent) : string :=
  match event_id event with
  | None | Some EmptyString => EmptyString
  | Some i => "id: " +:+ i +:+ JS.nl
  end.

Definition wire_retry_line (event : SSEEvent) : string :=
  match retry event with
  | None => EmptyString
  | Some r =>
      if decide (r = 0%Z) then EmptyString
      else "retry: " +:+ JS.Number_toString r +:+ JS.nl
  end.

Definition wire_data_lines (event : SSEEvent) : list string :=
  data_line <$> JS.split_lines (serialize_data (data event)).

Definition wire_message (event : SSEEvent) : string :=
  wire_event_line event +:+ wire_id_line event +:+ wire_retry_line event
  +:+ concat_strings (wire_data_lines event) +:+ JS.nl.

(** The expected text of the example of the specification. *)
Definition notification_hi : SSEEvent :=
  {| type := "notification";
     data := JS.JObject [("message", JS.JString "hi")];
     event_id := Some "abc";
     retry := None |}.

Definition notification_hi_text : string :=
  "event: notification" +:+ JS.nl +:+
  "id: abc" +:+ JS.nl +:+
  "data: {" +:+ JS.dq +:+ "message" +:+ JS.dq +:+ ":" +:+ JS.dq +:+ "hi"
    +:+ JS.dq +:+ "}" +:+ JS.nl +:+
  JS.nl.

Definition two_line_event : SSEEvent :=
  {| type := "message"; data := JS.JString ("line1" +:+ JS.nl +:+ "line2");
     event_id := None; retry := None |}.


(** *** Consistency of the registry *)

(** The key under which a handle is filed in an index: its [userId]
    (or [sessionId]) when that is set and not the empty string. *)
Definition user_key (client : SSEClient) : option string :=
  JS.truthy (userId client).
Definition session_key (client : SSEClient) : option string :=
  JS.truthy (sessionId client).

(** An index holds exactly the ids of the registered handles, grouped by
    key, and has no key whose set of members is empty. *)
Definition index_exact (key : SSEClient → option string)
    (registered : gmap string SSEClient) (index : gmap string (gset string))
  : Prop :=
  (∀ k i, (∃ members, index !! k = Some members ∧ i ∈ members)
          ↔ (∃ client, registered !! i = Some client ∧ key client = Some k))
  ∧ (∀ k members, index !! k = Some members → members ≠ ∅).

(** Every handle is registered under its own id. *)
Definition keyed_by_id (registered : gmap string SSEClient) : Prop :=
  ∀ i client, registered !! i = Some client → id client = i.

Definition registry_consistent (m : SSEClientManager) : Prop :=
  keyed_by_id (clients m)
  ∧ index_exact user_key (clients m) (userClientMap m)
  ∧ index_exact session_key (clients m) (sessionClientMap m).

(** Sequences of registry operations. *)
Inductive RegistryOp : Type :=
| OpAdd (client : SSEClient)
| OpRemove (clientId : string).

Section Runs.
Context {S : Type} `{SinkOps S}.

Definition apply_op (st : SSEClientManager * (ControllerRef → S)) (op : RegistryOp)
  : SSEClientManager * (ControllerRef → S) :=
  match op with
  | OpAdd client => ((addClient client st.1).2, st.2)
  | OpRemove clientId =>
      let '(_, m', σ') := removeClient clientId st.1 st.2 in (m', σ')
  end.

Definition run_ops (ops : list RegistryOp)
    (st : SSEClientManager * (ControllerRef → S))
  : SSEClientManager * (ControllerRef → S) :=
  foldl apply_op st ops.

(** No [OpAdd] of the sequence carries an id that is registered at the
    time it runs. *)
Fixpoint adds_fresh (ops : list RegistryOp)
    (st : SSEClientManager * (ControllerRef → S)) : bool :=
  match ops with
  | [] => true
  | op :: rest =>
      match op with
      | OpAdd client =>
          match clients st.1 !! id client with
          | None => true
          | Some _ => false
          end
      | OpRemove _ => true
      end && adds_fresh rest (apply_op st op)
  end.

End Runs.

(** *** Writes *)

Section Writes.
Context {S : Type} `{SinkOps S}.

(** The sink of the handle accepts the text of the event. *)
Definition writable (event : SSEEvent) (σ : ControllerRef → S)
    (client : SSEClient) : Prop :=
  is_Some (enqueue (σ (controller client)) (formatSSEMessage event)).

(** What one write of the event does to a sink. *)
Definition after_write (event : SSEEvent) (s : S) : S :=
  default s (enqueue s (formatSSEMessage event)).

End Writes.

(** *** Handles and states for running the definitions *)

Definition client_a : SSEClient :=
  {| id := "a"; userId := Some "u1"; sessionId := Some "s1"; controller := 0;
     connectedAt := 1000; lastPing := None |}.
Definition client_b : SSEClient :=
  {| id := "b"; userId := Some "u1"; sessionId := None; controller := 1;
     connectedAt := 2000; lastPing := Some 5000%Z |}.
Definition client_c : SSEClient :=
  {| id := "c"; userId := Some "u2"; sessionId := Some "s1"; controller := 2;
     connectedAt := 3000; lastPing := None |}.

(** A second handle with the id of [client_a], for another user. *)
Definition client_a_again : SSEClient :=
  {| id := "a"; userId := Some "u2"; sessionId := None; controller := 3;
     connectedAt := 4000; lastPing := None |}.

(** A handle whose [userId] is the empty string. *)
Definition client_e : SSEClient :=
  {| id := "e"; userId := Some EmptyString; sessionId := None; controller := 4;
     connectedAt := 5000; lastPing := None |}.

Definition all_open : ControllerRef → StreamController := λ _, open_controller.

Definition registry_abc : SSEClientManager * (ControllerRef → StreamController) :=
  run_ops [OpAdd client_a; OpAdd client_b; OpAdd client_c]
          (new_SSEClientManager defaultConfig, all_open).

(** A registry of capacity one that holds one handle. *)
Definition full_registry : SSEClientManager :=
  (addClient client_a
     (new_SSEClientManager
        {| heartbeatInterval := 30000; clientTimeoutMs := 120000;
           maxClients := 1 |})).2.

Definition runtime0 : Runtime StreamController :=
  {| controllers := all_open; intervals := ∅; nextTimerId := 0 |}.

(** The service of the default configuration after [new SSEService] and
    the [addClient] of three handles on its registry. *)
Definition service_abc : SSEService * Runtime StreamController :=
  let '(svc, rt) := new_SSEService defaultConfig runtime0 in
  (with_manager svc registry_abc.1, rt).

(** Three handles on three controllers, the second of which is closed. *)
Definition one_closed : ControllerRef → StreamController :=
  <[1 := closed_controller]> all_open.

(** *** Targets of a send *)

(** The handles a [sendEvent] is for: those the filter selects, or all of
    them when no filter is given. *)
Definition targets_of (filter : option ClientFilter) (m : SSEClientManager)
  : list SSEClient :=
  match filter with
  | Some f => getClientsByFilter f m
  | None => getAllClients m
  end.


(** ** Further definitions *)

(** The controllers of registered handles are pairwise different: each
    handle has the controller of its own stream. *)
Definition own_controllers (m : SSEClientManager) : Prop :=
  ∀ i j c d, clients m !! i = Some c → clients m !! j = Some d →
             controller c = controller d → i = j.

(** Handles for running the definitions: [client_d] shares the user of
    [client_a] and the session of [client_c]. *)
Definition client_d : SSEClient :=
  {| id := "d"; userId := Some "u1"; sessionId := Some "s1"; controller := 5;
     connectedAt := 6000; lastPing := None |}.

(** *** The event factories of the dispatcher

    [now] is the value of [Date.now()] and [timestamp] that of
    [new Date().toISOString()]. *)

Definition createHeartbeatEvent (now : Z) (timestamp : string) : SSEEvent :=
  {| type := "heartbeat";
     data := JS.JObject [("timestamp", JS.JString timestamp)];
     event_id := Some ("heartbeat-" +:+ JS.Number_toString now);
     retry := None |}.

Definition createErrorEvent (now : Z) (timestamp : string) (message : string)
    (code : option string) : SSEEvent :=
  {| type := "error";
     data :=
       JS.JObject
         [("message", JS.JString message);
          ("code", JS.JString (default "UNKNOWN_ERROR" code));
          ("timestamp", JS.JString timestamp)];
     event_id := Some ("error-" +:+ JS.Number_toString now);
     retry := None |}.

Definition createConnectionEvent (now : Z) (timestamp : string) : SSEEvent :=
  {| type := "connection";
     data :=
       JS.JObject
         [("status", JS.JString "connected");
          ("timestamp", JS.JString timestamp)];
     event_id := Some ("connection-" +:+ JS.Number_toString now);
     retry := None |}.

(** *** The callbacks of the two intervals *)

(** [client.lastPing = new Date()]; [ping] is the time read for the
    handle. *)
Definition set_lastPing (ping : SSEClient → Z) (client : SSEClient) : SSEClient :=
  {| id := id client; userId := userId client; sessionId := sessionId client;
     controller := controller client; connectedAt := connectedAt client;
     lastPing := Some (ping client) |}.

Section Callbacks.
Context {S : Type} `{SinkOps S}.

(** The callback of [startHeartbeat].  The handles of the array are the
    objects the registry holds, so the loop over the array stamps the
    handles of the registry; the count of the fan-out is not used. *)
Definition heartbeat_tick (now : Z) (timestamp : string) (ping : SSEClient → Z)
    (svc : SSEService) (rt : Runtime S) : SSEService * Runtime S :=
  let m := clientManager svc in
  let registered := clients m in
  let clients := getAllClients m in
  if Nat.eqb (length clients) 0 then (svc, rt)
  else
    let heartbeatEvent := createHeartbeatEvent now timestamp in
    let '(_, σ) := sendEventToClients clients heartbeatEvent (controllers rt) in
    (with_manager svc
       {| clients := set_lastPing ping <$> registered;
          userClientMap := userClientMap m;
          sessionClientMap := sessionClientMap m;
          metrics := metrics m;
          config := config m |},
     with_controllers rt σ).

(** The callback of [startCleanup]; [now] is the time [removeStaleClients]
    reads. *)
Definition cleanup_tick (now : Z) (svc : SSEService) (rt : Runtime S)
  : SSEService * Runtime S :=
  let '(removedCount, m, σ) :=
    removeStaleClients now (clientManager svc) (controllers rt) in
  (with_manager svc m, with_controllers rt σ).

End Callbacks.

(** *** The lines of a message *)

(** The lines a reader of the stream meets in the message of an event,
    one string for each line, without the line feeds: the field lines, the
    data lines, and the empty line that ends the message (followed by the
    empty piece after the last line feed). *)
Definition wire_lines (event : SSEEvent) : list string :=
  (match type event with
   | EmptyString => []
   | t => ["event: " +:+ t]
   end)
  ++ (match event_id event with
      | None | Some EmptyString => []
      | Some i => ["id: " +:+ i]
      end)
  ++ (match retry event with
      | None => []
      | Some r => if decide (r = 0%Z) then [] else ["retry: " +:+ JS.Number_toString r]
      end)
  ++ ((λ line, "data: " +:+ line) <$> JS.split_lines (serialize_data (data event)))
  ++ [EmptyString; EmptyString].

(** An event whose type carries a line feed. *)
Definition injecting_event : SSEEvent :=
  {| type := "a" +:+ JS.nl +:+ "data: forged"; data := JS.JString "real";
     event_id := None; retry := None |}.

(** *** Creating a client

    The rest of the controller interface [createClient] uses:
    [controller.error(e)], which never throws, and the controller a
    stream has when it is constructed. *)

Class StreamOps (S : Type) `{SinkOps S} : Type := {
  error : S → S;
  new_controller : S
}.

#[export] Instance StreamController_stream : StreamOps StreamController := {|
  error c := if ctl_open c then {| ctl_open := false; ctl_queue := [] |} else c;
  new_controller := open_controller
|}.

Section CreateClient.
Context {S : Type} `{StreamOps S}.

(** [createClient(userId, sessionId)].  [clientId] is the value of
    [generateClientId()], [r] the reference of the controller of the
    stream that is constructed, [connected] the value of [new Date()];
    [now] and [timestamp] are the clock readings of the connection event.
    The [start] callback runs while the stream is constructed; when it
    throws, the construction throws and [createClient] with it. *)
Definition createClient (clientId : string) (r : ControllerRef)
    (connected now : Z) (timestamp : string) (user session : option string)
    (svc : SSEService) (rt : Runtime S)
  : Outcome SSEClient * SSEService * Runtime S :=
  let σ := <[r := new_controller]> (controllers rt) in
  let client :=
    {| id := clientId; userId := user; sessionId := session; controller := r;
       connectedAt := connected; lastPing := None |} in
  match addClient client (clientManager svc) with
  | (Thrown e, m) =>
      (Thrown e, with_manager svc m,
       with_controllers rt (<[r := error (σ r)]> σ))
  | (Returned _, m) =>
      let connectionEvent := createConnectionEvent now timestamp in
      let '(_, σ') := sendEventToClient client connectionEvent σ in
      match getClient clientId m with
      | Some retrievedClient =>
          (Returned retrievedClient, with_manager svc m, with_controllers rt σ')
      | None =>
          (Thrown (Error "Failed to retrieve created client"),
           with_manager svc m, with_controllers rt σ')
      end
  end.

End CreateClient.

(** *** The POST handler of [src/app/api/sse/route.ts] *)

(** Truthiness of a JSON value. *)
Definition JSON_truthy (v : JS.JSON) : bool :=
  match v with
  | JS.JNull => false
  | JS.JBool b => b
  | JS.JNumber n => negb (Z.eqb n 0)
  | JS.JString EmptyString => false
  | _ => true
  end.

(** The body of the request, as [request.json()] gives it; a field that
    is missing is [None]. *)
Record PostBody : Type := mkPostBody {
  body_event : option string;
  body_data : option JS.JSON;
  body_userId : option string;
  body_sessionId : option string;
  body_clientIds : option (list string)
}.

Inductive HttpResponse : Type :=
| StatusResponse (status : nat) (text : string)
| SentResponse (eventsSent : nat) (event : SSEEvent).

Section Route.
Context {S : Type} `{SinkOps S}.

(** [POST(request)].  [session_user] is [session?.user?.id] of the session
    [auth()] resolves to, [body] what [request.json()] settles to, [now]
    the value of [Date.now()]. *)
Definition route_POST (session_user : option string) (body : Outcome PostBody)
    (now : Z) (svc : SSEService) (rt : Runtime S)
  : HttpResponse * SSEService * Runtime S :=
  match JS.truthy session_user with
  | None => (StatusResponse 401 "Unauthorized", svc, rt)
  | Some _ =>
      match body with
      | Thrown _ => (StatusResponse 500 "Internal Server Error", svc, rt)
      | Returned b =>
          match JS.truthy (body_event b), body_data b with
          | Some event, Some payload =>
              if JSON_truthy payload then
                let sseEvent :=
                  {| type := event; data := payload;
                     event_id := Some (event +:+ "-" +:+ JS.Number_toString now);
                     retry := None |} in
                let '(sent, svc', rt') :=
                  match body_clientIds b with
                  | Some ids => sendToClients ids sseEvent svc rt
                  | None =>
                      match JS.truthy (body_userId b) with
                      | Some u => sendToUser u sseEvent svc rt
                      | None =>
                          match JS.truthy (body_sessionId b) with
                          | Some s => sendToSession s sseEvent svc rt
                          | None => broadcast sseEvent svc rt
                          end
                      end
                  end in
                match sent with
                | Returned successCount =>
                    (SentResponse successCount sseEvent, svc', rt')
                | Thrown _ =>
                    (StatusResponse 500 "Internal Server Error", svc', rt')
                end
              else (StatusResponse 400 "Missing event or data", svc, rt)
          | _, _ => (StatusResponse 400 "Missing event or data", svc, rt)
          end
      end
  end.

End Route.
(** * Properties *)

(** ** Strings *)

Lemma append_cons (c : ascii) (s t : string) :
  String c s +:+ t = String c (s +:+ t).
Proof. reflexivity. Qed.

Lemma append_empty_l (s : string) : EmptyString +:+ s = s.
Proof. reflexivity. Qed.

Lemma append_empty_r (s : string) : s +:+ EmptyString = s.
Proof. induction s as [|c s IH]; [done|]. by rewrite append_cons, IH. Qed.

Lemma append_assoc (s t u : string) : (s +:+ t) +:+ u = s +:+ (t +:+ u).
Proof. induction s as [|c s IH]; [done|]. by rewrite !append_cons, IH. Qed.

Lemma fold_left_append {A} (f : A → string) (xs : list A) (acc : string) :
  fold_left (λ acc x, acc +:+ f x) xs acc = acc +:+ concat_strings (f <$> xs).
Proof.
  revert acc. induction xs as [|x xs IH]; intros acc; simpl.
  - by rewrite append_empty_r.
  - by rewrite IH, append_assoc.
Qed.

Lemma split_lines_nonempty (s : string) : JS.split_lines s ≠ [].
Proof.
  induction s as [|c s IH]; simpl; [done|].
  destruct (Ascii.eqb c JS.LF); [done|].
  by destruct (JS.split_lines s).
Qed.

Lemma split_lines_length (s : string) :
  length (JS.split_lines s) = 1 + JS.count_LF s.
Proof.
  induction s as [|c s IH]; simpl; [done|].
  destruct (Ascii.eqb c JS.LF); simpl; [by rewrite IH|].
  pose proof (split_lines_nonempty s).
  destruct (JS.split_lines s); simpl in *; [done | lia].
Qed.

Lemma split_lines_join (s : string) : JS.join_lines (JS.split_lines s) = s.
Proof.
  induction s as [|c s IH]; simpl; [done|].
  destruct (Ascii.eqb_spec c JS.LF) as [->|Hc].
  - pose proof (split_lines_nonempty s).
    destruct (JS.split_lines s) as [|l ls] eqn:E; [done|].
    change (JS.join_lines (EmptyString :: l :: ls))
      with (EmptyString +:+ JS.nl +:+ JS.join_lines (l :: ls)).
    by rewrite IH.
  - pose proof (split_lines_nonempty s).
    destruct (JS.split_lines s) as [|l ls] eqn:E; [done|].
    destruct ls as [|l' ls].
    + simpl in *. by rewrite IH.
    + change (JS.join_lines (String c l :: l' :: ls))
        with (String c l +:+ JS.nl +:+ JS.join_lines (l' :: ls)).
      change (JS.join_lines (l :: l' :: ls))
        with (l +:+ JS.nl +:+ JS.join_lines (l' :: ls)) in IH.
      by rewrite append_cons, IH.
Qed.

Lemma split_lines_no_LF (s : string) :
  Forall (λ line, JS.count_LF line = 0) (JS.split_lines s).
Proof.
  induction s as [|c s IH]; simpl.
  - by constructor.
  - destruct (Ascii.eqb c JS.LF) eqn:Ec.
    + by constructor.
    + destruct (JS.split_lines s) as [|l ls]; inversion IH; subst;
        constructor; simpl; rewrite ?Ec; done.
Qed.

Lemma split_lines_single (s : string) :
  JS.count_LF s = 0 → JS.split_lines s = [s].
Proof.
  induction s as [|c s IH]; simpl; [done|].
  destruct (Ascii.eqb c JS.LF); [done|]. intros Hs.
  by rewrite IH.
Qed.

Lemma split_lines_two (l1 l2 : string) :
  JS.count_LF l1 = 0 → JS.count_LF l2 = 0 →
  JS.split_lines (l1 +:+ JS.nl +:+ l2) = [l1; l2].
Proof.
  intros H1 H2. induction l1 as [|c l1 IH].
  - change (EmptyString +:+ JS.nl +:+ l2) with (String JS.LF l2).
    simpl. by rewrite split_lines_single.
  - rewrite append_cons. simpl in *.
    destruct (Ascii.eqb c JS.LF); [done|].
    by rewrite IH.
Qed.

(** ** The wire format *)

Lemma truthy_idemp (o : option string) : JS.truthy (JS.truthy o) = JS.truthy o.
Proof. by destruct o as [[|c s]|]. Qed.

Lemma truthy_number_idemp (o : option Z) :
  truthy_number (truthy_number o) = truthy_number o.
Proof.
  destruct o as [n|]; simpl; [|done].
  destruct (Z.eqb n 0) eqn:E; simpl; [done|]. by rewrite E.
Qed.

Lemma formatSSEMessage_fields (event : SSEEvent) :
  formatSSEMessage event = wire_message event.
Proof.
  unfold formatSSEMessage, wire_message, wire_data_lines.
  rewrite fold_left_append, !append_empty_l, !append_assoc.
  f_equal; [|f_equal].
  - unfold event_field, wire_event_line, message_of_event; simpl.
    by destruct (type event).
  - unfold id_field, wire_id_line, message_of_event; simpl.
    rewrite truthy_idemp. by destruct (event_id event) as [[|c s]|].
  - f_equal.
    unfold retry_field, wire_retry_line, message_of_event; simpl.
    rewrite truthy_number_idemp.
    destruct (retry event) as [r|]; simpl; [|done].
    destruct (Z.eqb_spec r 0); by case_decide.
Qed.

(** C3.  [formatSSEMessage] turns the event with type "notification", data
    {"message":"hi"}, id "abc" and no retry into exactly
    'event: notification\nid: abc\ndata: {"message":"hi"}\n\n'; and for
    every event the text is, in this order, the event line, the id line,
    the retry line (only when retry is present and not zero), the data
    lines, one per line of the serialized payload, and exactly one
    terminating blank line. *)
Theorem formatSSEMessage_wire_format :
  formatSSEMessage notification_hi = notification_hi_text
  ∧ ∀ event : SSEEvent,
      formatSSEMessage event
      = wire_event_line event +:+ wire_id_line event +:+ wire_retry_line event
        +:+ concat_strings (data_line <$> JS.split_lines (serialize_data (data event)))
        +:+ JS.nl.
Proof.
  split; [by vm_compute|].
  intros event. apply formatSSEMessage_fields.
Qed.

(** C8.  For every event, [formatSSEMessage] emits one [data:] line for
    each line of the serialized payload: the lines are the pieces between
    the line feeds of the payload (one more than it has line feeds, none
    holding a line feed, and joined by line feeds they give the payload
    back); a payload of two lines gives exactly two [data:] lines. *)
Theorem formatSSEMessage_data_lines :
  (∀ event : SSEEvent,
     let payload := serialize_data (data event) in
     let lines := JS.split_lines payload in
     formatSSEMessage event
     = wire_event_line event +:+ wire_id_line event +:+ wire_retry_line event
       +:+ concat_strings (data_line <$> lines) +:+ JS.nl
     ∧ length (data_line <$> lines) = 1 + JS.count_LF payload
     ∧ Forall (λ line, JS.count_LF line = 0) lines
     ∧ JS.join_lines lines = payload)
  ∧ (∀ (event : SSEEvent) (line1 line2 : string),
       serialize_data (data event) = line1 +:+ JS.nl +:+ line2 →
       JS.count_LF line1 = 0 → JS.count_LF line2 = 0 →
       formatSSEMessage event
       = wire_event_line event +:+ wire_id_line event +:+ wire_retry_line event
         +:+ ("data: " +:+ line1 +:+ JS.nl) +:+ ("data: " +:+ line2 +:+ JS.nl)
         +:+ JS.nl).
Proof.
  split.
  - intros event payload lines. split; [apply formatSSEMessage_fields|].
    split; [by rewrite length_fmap; apply split_lines_length|].
    split; [apply split_lines_no_LF | apply split_lines_join].
  - intros event line1 line2 Hpayload H1 H2.
    rewrite formatSSEMessage_fields. unfold wire_message, wire_data_lines.
    rewrite Hpayload, split_lines_two by done. simpl.
    unfold data_line. by rewrite append_empty_r, !append_assoc.
Qed.

Lemma formatSSEMessage_data_lines_witness :
  formatSSEMessage two_line_event
  = "event: message" +:+ JS.nl +:+ "data: line1" +:+ JS.nl
    +:+ "data: line2" +:+ JS.nl +:+ JS.nl.
Proof.
  pose proof (proj2 formatSSEMessage_data_lines two_line_event "line1" "line2"
                eq_refl eq_refl eq_refl) as E.
  exact E.
Defined.

(** ** The registry *)

Section RegistryFacts.
Context {S : Type} `{SinkOps S}.
Implicit Type σ : ControllerRef → S.

Lemma removeClient_absent (clientId : string) (m : SSEClientManager) σ :
  clients m !! clientId = None → removeClient clientId m σ = (false, m, σ).
Proof. intros Habsent. unfold removeClient. by rewrite Habsent. Qed.

Lemma removeClient_clients (clientId : string) (m : SSEClientManager) σ :
  clients (removeClient clientId m σ).1.2 = delete clientId (clients m).
Proof.
  unfold removeClient. destruct (clients m !! clientId) eqn:E; simpl; [done|].
  by rewrite delete_id.
Qed.

Lemma removeClient_metrics (clientId : string) (m : SSEClientManager) σ :
  metrics (removeClient clientId m σ).1.2 = metrics m.
Proof. unfold removeClient. by destruct (clients m !! clientId). Qed.

Lemma removeClient_config (clientId : string) (m : SSEClientManager) σ :
  config (removeClient clientId m σ).1.2 = config m.
Proof. unfold removeClient. by destruct (clients m !! clientId). Qed.

(** C7.  [removeClient] of an id that is not registered returns [false]
    and leaves the registry (maps, indexes and counters) and the sinks as
    they are; so after a first [removeClient] of an id, registered or not, a
    second one of that id returns [false] and changes nothing, the
    metrics included. *)
Theorem removeClient_idempotent :
  (∀ (clientId : string) (m : SSEClientManager) σ,
     clients m !! clientId = None →
     removeClient clientId m σ = (false, m, σ))
  ∧ (∀ (clientId : string) (m : SSEClientManager) σ,
       let '(_, m1, σ1) := removeClient clientId m σ in
       removeClient clientId m1 σ1 = (false, m1, σ1)
       ∧ getMetrics (removeClient clientId m1 σ1).1.2 = getMetrics m1).
Proof.
  split; [apply removeClient_absent|].
  intros clientId m σ.
  pose proof (removeClient_clients clientId m σ) as Hc.
  destruct (removeClient clientId m σ) as [[found m1] σ1]; simpl in Hc.
  assert (clients m1 !! clientId = None) as Habsent
    by (rewrite Hc; apply lookup_delete_eq).
  by rewrite removeClient_absent.
Qed.

End RegistryFacts.

Lemma removeClient_idempotent_witness :
  removeClient "zz" registry_abc.1 registry_abc.2
  = (false, registry_abc.1, registry_abc.2).
Proof.
  apply (proj1 removeClient_idempotent "zz" registry_abc.1 registry_abc.2).
  vm_compute. reflexivity.
Defined.

(** C4.  [addClient] on a registry whose size equals [maxClients] throws
    the capacity error, and the registry it leaves is the one it found:
    same primary map, same two indexes, same [totalConnections]. *)
Theorem addClient_at_capacity (client : SSEClient) (m : SSEClientManager) :
  Z.of_nat (getClientCount m) = maxClients (config m) →
  addClient client m
  = (Thrown (Error ("Maximum client limit reached: "
                      +:+ JS.Number_toString (maxClients (config m)))), m)
  ∧ clients (addClient client m).2 = clients m
  ∧ userClientMap (addClient client m).2 = userClientMap m
  ∧ sessionClientMap (addClient client m).2 = sessionClientMap m
  ∧ totalConnections (metrics (addClient client m).2)
    = totalConnections (metrics m).
Proof.
  intros Hfull. unfold getClientCount in Hfull. unfold addClient.
  rewrite <- Hfull, Z.leb_refl. done.
Qed.

Lemma addClient_at_capacity_witness :
  addClient client_b full_registry
  = (Thrown (Error "Maximum client limit reached: 1"), full_registry).
Proof.
  refine (proj1 (addClient_at_capacity client_b full_registry _)).
  vm_compute. reflexivity.
Defined.

(** ** Consistency of the indexes *)

Lemma index_add_lookup (key clientId k : string) (index : gmap string (gset string)) :
  index_add key clientId index !! k
  = if decide (key = k)
    then Some ({[clientId]} ∪ default ∅ (index !! key))
    else index !! k.
Proof.
  unfold index_add. case_decide as Hk.
  - subst k. destruct (index !! key) as [members|] eqn:E.
    + by rewrite lookup_alter_eq, E.
    + by rewrite lookup_alter_eq, lookup_insert_eq.
  - rewrite lookup_alter_ne by done.
    destruct (index !! key); [done|]. by rewrite lookup_insert_ne.
Qed.

Lemma index_remove_lookup (key clientId k : string) (index : gmap string (gset string)) :
  index_remove key clientId index !! k
  = if decide (key = k)
    then members ← index !! key;
         if decide (members ∖ {[clientId]} = ∅) then None
         else Some (members ∖ {[clientId]})
    else index !! k.
Proof.
  unfold index_remove. destruct (index !! key) as [members|] eqn:E; simpl.
  - destruct (Nat.eqb_spec (size (members ∖ {[clientId]})) 0) as [H0|H0].
    + apply size_empty_iff, leibniz_equiv in H0.
      case_decide as Hk; [subst k|].
      * rewrite lookup_delete_eq. by case_decide.
      * by rewrite lookup_delete_ne.
    + assert (members ∖ {[clientId]} ≠ ∅) as Hne.
      { intros Hempty. apply H0. by rewrite Hempty, size_empty. }
      case_decide as Hk; [subst k|].
      * rewrite lookup_insert_eq. by case_decide.
      * by rewrite lookup_insert_ne.
  - case_decide as Hk; [by subst k|done].
Qed.

Lemma index_exact_empty (key : SSEClient → option string) : index_exact key ∅ ∅.
Proof.
  split.
  - intros k i. split.
    + intros (members & Hm & _). by rewrite lookup_empty in Hm.
    + intros (client & Hc & _). by rewrite lookup_empty in Hc.
  - intros k members Hm. by rewrite lookup_empty in Hm.
Qed.

Lemma index_exact_add (key : SSEClient → option string)
    (registered : gmap string SSEClient) (index : gmap string (gset string))
    (client : SSEClient) :
  registered !! id client = None →
  index_exact key registered index →
  index_exact key (<[id client := client]> registered)
    (match key client with
     | Some k => index_add k (id client) index
     | None => index
     end).
Proof.
  intros Hfresh [Hexact Hnonempty].
  destruct (key client) as [kc|] eqn:Hkc.
  - split.
    + intros k i. rewrite index_add_lookup. split.
      * intros (members & Hm & Hi). case_decide as Hk.
        -- subst k. injection Hm as <-.
           apply elem_of_union in Hi as [Hi|Hi].
           ++ apply elem_of_singleton in Hi as ->.
              exists client. by rewrite lookup_insert_eq.
           ++ destruct (index !! kc) as [old|] eqn:Hold; simpl in Hi;
                [|by apply not_elem_of_empty in Hi].
              destruct (proj1 (Hexact kc i)) as (c0 & Hc0 & Hk0); [by eauto|].
              exists c0. split; [|done].
              rewrite lookup_insert_ne; [done|congruence].
        -- destruct (proj1 (Hexact k i)) as (c0 & Hc0 & Hk0); [by eauto|].
           exists c0. split; [|done].
           rewrite lookup_insert_ne; [done|congruence].
      * intros (c0 & Hc0 & Hk0).
        destruct (decide (id client = i)) as [<-|Hi].
        -- rewrite lookup_insert_eq in Hc0. injection Hc0 as <-.
           assert (kc = k) as -> by congruence.
           rewrite decide_True by done.
           eexists. split; [done|].
           apply elem_of_union. left. by apply elem_of_singleton.
        -- rewrite lookup_insert_ne in Hc0 by done.
           destruct (proj2 (Hexact k i)) as (members & Hm & Hin); [by eauto|].
           case_decide as Hk.
           ++ subst k. eexists. split; [done|]. rewrite Hm.
              apply elem_of_union. by right.
           ++ by eauto.
    + intros k members. rewrite index_add_lookup. case_decide.
      * intros [= <-]. apply (non_empty_inhabited_L (id client)).
        apply elem_of_union. left. by apply elem_of_singleton.
      * apply Hnonempty.
  - split; [|done].
    intros k i. rewrite (Hexact k i). split.
    + intros (c0 & Hc0 & Hk0). exists c0. split; [|done].
      rewrite lookup_insert_ne; [done|congruence].
    + intros (c0 & Hc0 & Hk0).
      destruct (decide (id client = i)) as [<-|Hi].
      * rewrite lookup_insert_eq in Hc0. congruence.
      * rewrite lookup_insert_ne in Hc0 by done. by eauto.
Qed.

Lemma index_exact_remove (key : SSEClient → option string)
    (registered : gmap string SSEClient) (index : gmap string (gset string))
    (clientId : string) (client : SSEClient) :
  registered !! clientId = Some client →
  index_exact key registered index →
  index_exact key (delete clientId registered)
    (match key client with
     | Some k => index_remove k clientId index
     | None => index
     end).
Proof.
  intros Hreg [Hexact Hnonempty].
  destruct (key client) as [kc|] eqn:Hkc.
  - destruct (proj2 (Hexact kc clientId)) as (old & Hold & Hin); [by eauto|].
    split.
    + intros k i. rewrite index_remove_lookup, Hold. simpl. split.
      * intros (members & Hm & Hi). case_decide as Hk.
        -- subst k. case_decide; [done|]. injection Hm as <-.
           apply elem_of_difference in Hi as [Hi Hne].
           rewrite elem_of_singleton in Hne.
           destruct (proj1 (Hexact kc i)) as (c0 & Hc0 & Hk0); [by eauto|].
           exists c0. split; [|done]. by rewrite lookup_delete_ne.
        -- destruct (proj1 (Hexact k i)) as (c0 & Hc0 & Hk0); [by eauto|].
           exists c0. split; [|done].
           rewrite lookup_delete_ne; [done|]. intros ->. congruence.
      * intros (c0 & Hc0 & Hk0).
        destruct (decide (clientId = i)) as [<-|Hi];
          [by rewrite lookup_delete_eq in Hc0|].
        rewrite lookup_delete_ne in Hc0 by done.
        destruct (proj2 (Hexact k i)) as (members & Hm & Hmem); [by eauto|].
        case_decide as Hk.
        -- subst k. assert (members = old) as -> by congruence.
           assert (i ∈ old ∖ {[clientId]}) as Hstill.
           { apply elem_of_difference. split; [done|].
             rewrite elem_of_singleton. congruence. }
           case_decide as Hempty.
           { rewrite Hempty in Hstill. by apply not_elem_of_empty in Hstill. }
           by eauto.
        -- by eauto.
    + intros k members. rewrite index_remove_lookup, Hold. simpl.
      case_decide; [|apply Hnonempty].
      case_decide; [done|]. by intros [= <-].
  - split; [|done].
    intros k i. rewrite (Hexact k i). split.
    + intros (c0 & Hc0 & Hk0). exists c0. split; [|done].
      rewrite lookup_delete_ne; [done|]. intros ->. congruence.
    + intros (c0 & Hc0 & Hk0).
      destruct (decide (clientId = i)) as [<-|Hi];
        [by rewrite lookup_delete_eq in Hc0|].
      rewrite lookup_delete_ne in Hc0 by done. by eauto.
Qed.

Lemma new_SSEClientManager_consistent (cfg : SSEServiceConfig) :
  registry_consistent (new_SSEClientManager cfg).
Proof.
  split; [|split; apply index_exact_empty].
  intros i client Hc. simpl in Hc. by rewrite lookup_empty in Hc.
Qed.

Lemma addClient_consistent (client : SSEClient) (m : SSEClientManager) :
  clients m !! id client = None →
  registry_consistent m → registry_consistent (addClient client m).2.
Proof.
  intros Hfresh (Hid & Huser & Hsession). unfold addClient.
  destruct (maxClients (config m) <=? Z.of_nat (size (clients m)))%Z; simpl;
    [done|].
  split; [|split].
  - intros i c0. simpl. destruct (decide (id client = i)) as [<-|Hi].
    + rewrite lookup_insert_eq. congruence.
    + rewrite lookup_insert_ne by done. apply Hid.
  - by apply (index_exact_add user_key).
  - by apply (index_exact_add session_key).
Qed.

Section ConsistencyOfRuns.
Context {S : Type} `{SinkOps S}.
Implicit Type σ : ControllerRef → S.

Lemma removeClient_consistent (clientId : string) (m : SSEClientManager) σ :
  registry_consistent m → registry_consistent (removeClient clientId m σ).1.2.
Proof.
  intros (Hid & Huser & Hsession). unfold removeClient.
  destruct (clients m !! clientId) as [client|] eqn:Hreg; simpl; [|done].
  split; [|split].
  - intros i c0. simpl. intros Hc0.
    apply lookup_delete_Some in Hc0 as [_ Hc0]. by apply Hid.
  - by apply (index_exact_remove user_key).
  - by apply (index_exact_remove session_key).
Qed.

Lemma apply_op_consistent (op : RegistryOp)
    (st : SSEClientManager * (ControllerRef → S)) :
  adds_fresh [op] st = true →
  registry_consistent st.1 → registry_consistent (apply_op st op).1.
Proof.
  destruct st as [m σ]. destruct op as [client|clientId]; simpl.
  - destruct (clients m !! id client) eqn:E; [done|]. intros _.
    by apply addClient_consistent.
  - intros _ Hm. pose proof (removeClient_consistent clientId m σ Hm) as Hr.
    by destruct (removeClient clientId m σ) as [[found m'] σ'].
Qed.

Lemma run_ops_consistent (ops : list RegistryOp)
    (st : SSEClientManager * (ControllerRef → S)) (n : nat) :
  adds_fresh ops st = true →
  registry_consistent st.1 →
  registry_consistent (run_ops (take n ops) st).1.
Proof.
  revert st n. induction ops as [|op ops IH]; intros st n Hfresh Hst.
  - by rewrite take_nil.
  - destruct n as [|n]; [done|].
    simpl in Hfresh. apply andb_prop in Hfresh as [Hop Hrest].
    simpl. apply IH; [done|].
    apply apply_op_consistent; [|done].
    simpl. by rewrite Hop.
Qed.

(** C2 (as the code has it).  From the empty registry, along every
    sequence of [addClient] and [removeClient] calls none of whose
    [addClient] carries an id that is registered at that time, after every
    prefix of the sequence: each handle is registered under its own id, the
    [userId] index and the [sessionId] index hold exactly the ids of the
    registered handles, grouped by their [userId] and [sessionId] (a field
    that is the empty string counts as unset), and no index key has an
    empty set of members. *)
Theorem indexes_exact_along_fresh_runs (cfg : SSEServiceConfig) σ
    (ops : list RegistryOp) (n : nat) :
  adds_fresh ops (new_SSEClientManager cfg, σ) = true →
  registry_consistent (run_ops (take n ops) (new_SSEClientManager cfg, σ)).1.
Proof.
  intros Hfresh. apply run_ops_consistent; [done|].
  apply new_SSEClientManager_consistent.
Qed.

End ConsistencyOfRuns.

Lemma indexes_exact_along_fresh_runs_witness :
  registry_consistent
    (run_ops (take 4 [OpAdd client_a; OpAdd client_b; OpRemove "a"; OpAdd client_c])
             (new_SSEClientManager defaultConfig, all_open)).1.
Proof.
  apply (indexes_exact_along_fresh_runs defaultConfig all_open
           [OpAdd client_a; OpAdd client_b; OpRemove "a"; OpAdd client_c] 4).
  vm_compute. reflexivity.
Defined.

(** C2 as it is stated fails: an [addClient] with the id of a registered
    handle replaces the handle in the primary map and leaves its id in
    the index entry of the first handle's user. *)
Lemma duplicate_id_leaves_orphan_index_entry :
  ¬ registry_consistent
      (run_ops [OpAdd client_a; OpAdd client_a_again]
               (new_SSEClientManager defaultConfig, all_open)).1.
Proof.
  intros (_ & [Huser _] & _).
  destruct (proj1 (Huser "u1" "a")) as (client & Hclient & Hkey).
  - exists {["a"]}. split; [by vm_compute|]. by apply elem_of_singleton.
  - vm_compute in Hclient. injection Hclient as <-. by vm_compute in Hkey.
Qed.

(** A handle whose [userId] is the empty string is registered and filed
    under no user. *)
Example empty_userId_is_not_indexed :
  let m := (addClient client_e (new_SSEClientManager defaultConfig)).2 in
  clients m !! "e" = Some client_e ∧ userClientMap m = ∅.
Proof. split; by vm_compute. Qed.

(** ** Eviction of stale handles *)

Section Eviction.
Context {S : Type} `{SinkOps S}.
Implicit Type σ : ControllerRef → S.

Lemma remove_each_cons (clientId : string) (ids : list string)
    (m : SSEClientManager) σ :
  remove_each (clientId :: ids) m σ
  = remove_each ids (removeClient clientId m σ).1.2 (removeClient clientId m σ).2.
Proof.
  unfold remove_each. simpl.
  by destruct (removeClient clientId m σ) as [[found m'] σ'].
Qed.

Lemma remove_each_lookup (ids : list string) (m : SSEClientManager) σ (i : string) :
  clients (remove_each ids m σ).1 !! i
  = if decide (i ∈ ids) then None else clients m !! i.
Proof.
  revert m σ. induction ids as [|clientId ids IH]; intros m σ.
  - rewrite decide_False; [done|]. apply not_elem_of_nil.
  - rewrite remove_each_cons, IH, removeClient_clients.
    destruct (decide (i ∈ ids)) as [Hin|Hnotin].
    + rewrite decide_True; [done|]. by right.
    + destruct (decide (clientId = i)) as [->|Hne].
      * rewrite lookup_delete_eq, decide_True; [done|]. by left.
      * rewrite lookup_delete_ne by done. rewrite decide_False; [done|].
        intros [->|?]%elem_of_cons; done.
Qed.

Lemma remove_each_metrics (ids : list string) (m : SSEClientManager) σ :
  metrics (remove_each ids m σ).1 = metrics m.
Proof.
  revert m σ. induction ids as [|clientId ids IH]; intros m σ; [done|].
  by rewrite remove_each_cons, IH, removeClient_metrics.
Qed.

Lemma remove_each_config (ids : list string) (m : SSEClientManager) σ :
  config (remove_each ids m σ).1 = config m.
Proof.
  revert m σ. induction ids as [|clientId ids IH]; intros m σ; [done|].
  by rewrite remove_each_cons, IH, removeClient_config.
Qed.

Lemma remove_each_consistent (ids : list string) (m : SSEClientManager) σ :
  registry_consistent m → registry_consistent (remove_each ids m σ).1.
Proof.
  revert m σ. induction ids as [|clientId ids IH]; intros m σ Hm; [done|].
  rewrite remove_each_cons. by apply IH, removeClient_consistent.
Qed.

Lemma is_stale_spec (cfg : SSEServiceConfig) (now : Z) (client : SSEClient) :
  is_stale cfg now client = true
  ↔ (clientTimeoutMs cfg < timeSinceLastPing now client)%Z.
Proof. unfold is_stale. apply Z.ltb_lt. Qed.

Lemma stale_ids_spec (cfg : SSEServiceConfig) (now : Z)
    (registered : gmap string SSEClient) (i : string) :
  i ∈ (filter (λ entry, is_stale cfg now entry.2 = true) (map_to_list registered)).*1
  ↔ ∃ client, registered !! i = Some client
              ∧ (clientTimeoutMs cfg < timeSinceLastPing now client)%Z.
Proof.
  rewrite list_elem_of_fmap. split.
  - intros ([i' client] & -> & Hin). simpl.
    apply list_elem_of_filter in Hin as [Hstale Hin].
    apply elem_of_map_to_list in Hin. apply is_stale_spec in Hstale. by eauto.
  - intros (client & Hreg & Hstale). exists (i, client). split; [done|].
    apply list_elem_of_filter. split.
    + by apply is_stale_spec.
    + by apply elem_of_map_to_list.
Qed.

Lemma stale_ids_length (cfg : SSEServiceConfig) (now : Z)
    (registered : gmap string SSEClient) :
  length ((filter (λ entry, is_stale cfg now entry.2 = true)
                  (map_to_list registered)).*1)
  = size (filter (λ entry : string * SSEClient,
                    (clientTimeoutMs cfg < timeSinceLastPing now entry.2)%Z)
                 registered).
Proof.
  rewrite length_fmap.
  assert (filter (λ entry : string * SSEClient,
                    (clientTimeoutMs cfg < timeSinceLastPing now entry.2)%Z)
                 registered
          = filter (λ entry, is_stale cfg now entry.2 = true) registered) as ->.
  { apply map_filter_ext. intros i client _. simpl. symmetry.
    apply is_stale_spec. }
  rewrite map_filter_alt, map_size_list_to_map; [done|].
  apply NoDup_fmap_fst.
  - intros i c1 c2 [_ H1]%list_elem_of_filter [_ H2]%list_elem_of_filter.
    apply elem_of_map_to_list in H1, H2. congruence.
  - apply list.NoDup_filter, NoDup_map_to_list.
Qed.

Lemma timeSinceLastPing_cases (now : Z) (client : SSEClient) :
  (∀ ping, lastPing client = Some ping →
           timeSinceLastPing now client = (now - ping)%Z)
  ∧ (lastPing client = None →
     timeSinceLastPing now client = (now - connectedAt client)%Z).
Proof. unfold timeSinceLastPing. split; [intros ping ->|intros ->]; done. Qed.

(** C5.  [removeStaleClients], run at time [now], leaves registered exactly
    the handles whose idle time ([now - lastPing] when [lastPing] is set,
    [now - connectedAt] otherwise) does not exceed [clientTimeoutMs], so it
    evicts exactly those whose idle time is strictly greater: a handle with
    a [lastPing] goes exactly when [clientTimeoutMs < now - lastPing], a
    handle without one exactly when [clientTimeoutMs < now - connectedAt];
    a handle whose idle time equals the timeout stays; the evictions are
    [removeClient] calls, which keep the indexes exact; and the number
    returned is the number of handles evicted. *)
Theorem removeStaleClients_evicts_exactly (now : Z) (m : SSEClientManager) σ :
  let timeout := clientTimeoutMs (config m) in
  let idle := λ client : SSEClient,
                match lastPing client with
                | Some ping => (now - ping)%Z
                | None => (now - connectedAt client)%Z
                end in
  let stale := λ entry : string * SSEClient, (timeout < idle entry.2)%Z in
  let result := removeStaleClients now m σ in
  clients result.1.2 = filter (λ entry, ¬ stale entry) (clients m)
  ∧ result.1.1 = size (filter stale (clients m))
  ∧ (result.1.1 + getClientCount result.1.2 = getClientCount m)%nat
  ∧ (∀ i client, clients m !! i = Some client →
                 idle client = timeout →
                 clients result.1.2 !! i = Some client)
  ∧ (∀ i client ping,
       clients m !! i = Some client → lastPing client = Some ping →
       (clients result.1.2 !! i = None ↔ (timeout < now - ping)%Z)
       ∧ (clients result.1.2 !! i = Some client ↔ (now - ping ≤ timeout)%Z))
  ∧ (∀ i client,
       clients m !! i = Some client → lastPing client = None →
       (clients result.1.2 !! i = None
        ↔ (timeout < now - connectedAt client)%Z)
       ∧ (clients result.1.2 !! i = Some client
          ↔ (now - connectedAt client ≤ timeout)%Z))
  ∧ (∃ evicted_ids,
        (∀ i, i ∈ evicted_ids ↔ ∃ client, clients m !! i = Some client
                                           ∧ stale (i, client))
        ∧ (result.1.2, result.2) = remove_each evicted_ids m σ)
  ∧ (registry_consistent m → registry_consistent result.1.2).
Proof.
  intros timeout idle stale result.
  assert (∀ client, timeSinceLastPing now client = idle client) as Hidle.
  { intros client. destruct (timeSinceLastPing_cases now client) as [Hset Hunset].
    unfold idle. destruct (lastPing client) as [ping|]; [by apply Hset|by apply Hunset]. }
  subst result. unfold removeStaleClients, getClientCount.
  set (ids := (filter _ (map_to_list (clients m))).*1).
  pose proof (remove_each_lookup ids m σ) as Hlookup.
  pose proof (remove_each_consistent ids m σ) as Hcons.
  assert (∀ i, i ∈ ids ↔ ∃ client, clients m !! i = Some client
                                    ∧ stale (i, client)) as Hids.
  { intros i. unfold ids. rewrite stale_ids_spec. unfold stale, timeout. simpl.
    split; intros (client & Hreg & Hstale); exists client;
      (split; [done|]); [by rewrite <- Hidle|by rewrite Hidle]. }
  assert (length ids = size (filter stale (clients m))) as Hcount.
  { unfold ids. rewrite stale_ids_length.
    assert (filter (λ entry : string * SSEClient,
                      (clientTimeoutMs (config m)
                       < timeSinceLastPing now entry.2)%Z) (clients m)
            = filter stale (clients m)) as ->; [|done].
    apply map_filter_ext. intros i client _. unfold stale, timeout. simpl.
    by rewrite Hidle. }
  destruct (remove_each ids m σ) as [m' σ'] eqn:Hrun. simpl in *.
  assert (∀ i client, clients m !! i = Some client →
            (clients m' !! i = None ↔ (timeout < idle client)%Z)
            ∧ (clients m' !! i = Some client ↔ (idle client ≤ timeout)%Z))
    as Hfate.
  { intros i client Hreg. rewrite Hlookup.
    destruct (decide (i ∈ ids)) as [Hin|Hnotin].
    - apply Hids in Hin as (c0 & Hc0 & Hstale).
      assert (c0 = client) as -> by congruence.
      change (timeout < idle client)%Z in Hstale.
      split; split; intros ?; try done; lia.
    - assert (¬ (timeout < idle client)%Z) as Hfresh.
      { intros Hstale. apply Hnotin, Hids. by eauto. }
      rewrite Hreg. split; split; intros ?; try done; lia. }
  assert (clients m' = filter (λ entry, ¬ stale entry) (clients m)) as Hkept.
  { apply map_eq. intros i. symmetry.
    destruct (clients m !! i) as [client|] eqn:Hreg.
    - destruct (Hfate i client Hreg) as [Hgone Hstays].
      destruct (decide (timeout < idle client)%Z) as [Hstale|Hfresh].
      + rewrite (proj2 Hgone Hstale). apply map_lookup_filter_None. right.
        intros c0 Hc0 Hnot. apply Hnot.
        assert (c0 = client) as -> by congruence. exact Hstale.
      + rewrite (proj2 Hstays) by lia.
        apply map_lookup_filter_Some. split; [done|]. by unfold stale.
    - rewrite Hlookup, Hreg. case_decide; apply map_lookup_filter_None; by left. }
  split; [done|]. split; [done|]. split.
  { rewrite Hcount, Hkept.
    pose proof (map_size_disj_union (filter stale (clients m))
                  (filter (λ entry, ¬ stale entry) (clients m))) as Hsplit.
    rewrite map_filter_union_complement in Hsplit.
    symmetry. apply Hsplit. apply map_disjoint_filter_complement. }
  split; [|split; [|split; [|split]]].
  - intros i client Hreg Hboundary. apply (Hfate i client Hreg). lia.
  - intros i client ping Hreg Hping.
    destruct (Hfate i client Hreg) as [Hgone Hstays].
    unfold idle in Hgone, Hstays. by rewrite Hping in Hgone, Hstays.
  - intros i client Hreg Hnone.
    destruct (Hfate i client Hreg) as [Hgone Hstays].
    unfold idle in Hgone, Hstays. by rewrite Hnone in Hgone, Hstays.
  - by exists ids.
  - done.
Qed.

End Eviction.

Lemma removeStaleClients_evicts_exactly_witness :
  clients (removeStaleClients 125000 registry_abc.1 registry_abc.2).1.2 !! "b"
  = Some client_b
  ∧ clients (removeStaleClients 123000 registry_abc.1 registry_abc.2).1.2 !! "c"
    = Some client_c
  ∧ clients (removeStaleClients 123001 registry_abc.1 registry_abc.2).1.2 !! "c"
    = None.
Proof.
  split; [|split].
  - refine (proj1 (proj2 (proj2 (proj2
              (removeStaleClients_evicts_exactly 125000
                 registry_abc.1 registry_abc.2))))
              "b" client_b _ _); vm_compute; reflexivity.
  - refine (proj2 (proj2 (proj1 (proj2 (proj2 (proj2 (proj2 (proj2
              (removeStaleClients_evicts_exactly 123000
                 registry_abc.1 registry_abc.2))))))
              "c" client_c _ _)) _).
    + vm_compute. reflexivity.
    + reflexivity.
    + vm_compute. discriminate.
  - refine (proj2 (proj1 (proj1 (proj2 (proj2 (proj2 (proj2 (proj2
              (removeStaleClients_evicts_exactly 123001
                 registry_abc.1 registry_abc.2))))))
              "c" client_c _ _)) _).
    + vm_compute. reflexivity.
    + reflexivity.
    + vm_compute. reflexivity.
Defined.

Example removeStaleClients_abc :
  (removeStaleClients 125000 registry_abc.1 registry_abc.2).1.1 = 2
  ∧ dom (clients (removeStaleClients 125000 registry_abc.1 registry_abc.2).1.2)
    = {["b"]}.
Proof. split; by vm_compute. Qed.

(** ** Reset *)

Section Reset.
Context {S : Type} `{SinkOps S}.
Implicit Type σ : ControllerRef → S.

Lemma cleanup_clients (m : SSEClientManager) σ : clients (cleanup m σ).1 = ∅.
Proof.
  apply map_empty. intros i. unfold cleanup. rewrite remove_each_lookup.
  case_decide as Hin; [done|].
  destruct (clients m !! i) as [client|] eqn:Hreg; [|done].
  destruct Hin. apply list_elem_of_fmap. exists (i, client).
  split; [done|]. by apply elem_of_map_to_list.
Qed.

Lemma index_exact_no_handles (key : SSEClient → option string)
    (index : gmap string (gset string)) :
  index_exact key ∅ index → index = ∅.
Proof.
  intros [Hexact Hnonempty]. apply map_empty. intros k.
  destruct (index !! k) as [members|] eqn:Hk; [|done].
  destruct (set_choose_L members) as [i Hi]; [by eapply Hnonempty|].
  destruct (proj1 (Hexact k i)) as (client & Hreg & _); [by eauto|].
  by rewrite lookup_empty in Hreg.
Qed.

Lemma cleanup_indexes (m : SSEClientManager) σ :
  registry_consistent m →
  userClientMap (cleanup m σ).1 = ∅ ∧ sessionClientMap (cleanup m σ).1 = ∅.
Proof.
  intros Hm. pose proof (cleanup_clients m σ) as Hempty.
  destruct (remove_each_consistent (map_to_list (clients m)).*1 m σ Hm)
    as (_ & Huser & Hsession).
  fold (cleanup m σ) in Huser, Hsession. rewrite Hempty in Huser, Hsession.
  split; by eapply index_exact_no_handles.
Qed.

(** C1 (as the code has it).  After [reset]: no handle is registered, so
    [activeConnections] is zero, and with exact indexes before, both indexes
    are empty after; the counters [totalConnections], [eventsDispatched]
    and [errors] have the values they had before the reset; the
    configuration is the same; and the service holds a heartbeat interval
    and a cleanup interval that were set by the reset, with the periods of
    the configuration. *)
Theorem reset_clears_registry_keeps_counters (svc : SSEService) (rt : Runtime S) :
  let after := reset svc rt in
  clients (clientManager after.1) = ∅
  ∧ activeConnections (service_getMetrics after.1) = 0
  ∧ (registry_consistent (clientManager svc) →
     userClientMap (clientManager after.1) = ∅
     ∧ sessionClientMap (clientManager after.1) = ∅)
  ∧ metrics (clientManager after.1) = metrics (clientManager svc)
  ∧ svc_config after.1 = svc_config svc
  ∧ config (clientManager after.1) = config (clientManager svc)
  ∧ svc_heartbeatInterval after.1 = Some (nextTimerId rt)
  ∧ svc_cleanupInterval after.1 = Some (nextTimerId rt + 1)
  ∧ intervals after.2 !! nextTimerId rt
    = Some {| callback := HeartbeatLoop;
              delay_num := heartbeatInterval (svc_config svc); delay_den := 1 |}
  ∧ intervals after.2 !! (nextTimerId rt + 1)
    = Some {| callback := CleanupLoop;
              delay_num := clientTimeoutMs (svc_config svc); delay_den := 2 |}.
Proof.
  intros after. subst after. unfold reset.
  pose proof (cleanup_clients (clientManager svc) (controllers rt)) as Hclients.
  pose proof (cleanup_indexes (clientManager svc) (controllers rt)) as Hindexes.
  pose proof (remove_each_metrics (map_to_list (clients (clientManager svc))).*1
                (clientManager svc) (controllers rt)) as Hmetrics.
  pose proof (remove_each_config (map_to_list (clients (clientManager svc))).*1
                (clientManager svc) (controllers rt)) as Hconfig.
  fold (cleanup (clientManager svc) (controllers rt)) in Hmetrics, Hconfig.
  destruct (cleanup (clientManager svc) (controllers rt)) as [m σ].
  simpl in *. rewrite Hclients.
  split; [done|]. split; [by rewrite map_size_empty|].
  split; [done|]. split; [done|]. split; [done|]. split; [done|].
  split; [done|]. split; [done|]. split.
  - rewrite lookup_insert_ne by lia. by rewrite lookup_insert_eq.
  - by rewrite lookup_insert_eq.
Qed.

End Reset.

Lemma reset_clears_registry_keeps_counters_witness :
  userClientMap (clientManager (reset service_abc.1 service_abc.2).1) = ∅
  ∧ sessionClientMap (clientManager (reset service_abc.1 service_abc.2).1) = ∅.
Proof.
  refine (proj1 (proj2 (proj2
            (reset_clears_registry_keeps_counters service_abc.1 service_abc.2))) _).
  apply (run_ops_consistent [OpAdd client_a; OpAdd client_b; OpAdd client_c]
           (new_SSEClientManager defaultConfig, all_open) 3).
  - vm_compute. reflexivity.
  - apply new_SSEClientManager_consistent.
Defined.

(** C1 as it is stated fails: [reset] on the service with three handles
    registered leaves [totalConnections] at three. *)
Lemma reset_keeps_totalConnections :
  service_getMetrics (reset service_abc.1 service_abc.2).1
  = {| activeConnections := 0; m_totalConnections := 3;
       m_eventsDispatched := 0; m_errors := 0 |}
  ∧ ¬ (m_totalConnections (service_getMetrics (reset service_abc.1 service_abc.2).1) = 0
       ∧ m_eventsDispatched (service_getMetrics (reset service_abc.1 service_abc.2).1) = 0
       ∧ m_errors (service_getMetrics (reset service_abc.1 service_abc.2).1) = 0).
Proof.
  assert (service_getMetrics (reset service_abc.1 service_abc.2).1
          = {| activeConnections := 0; m_totalConnections := 3;
               m_eventsDispatched := 0; m_errors := 0 |}) as E by (by vm_compute).
  split; [done|]. rewrite E. simpl. intros [? _]. done.
Qed.

(** ** Fan-out *)

Lemma filter_ext_in {A} (P Q : A → Prop) `{!∀ x, Decision (P x)}
    `{!∀ x, Decision (Q x)} (l : list A) :
  (∀ x, x ∈ l → P x ↔ Q x) → filter P l = filter Q l.
Proof.
  induction l as [|x l IH]; intros Hext; [done|].
  rewrite !filter_cons, IH.
  - destruct (decide (P x)) as [HP|HP], (decide (Q x)) as [HQ|HQ]; try done;
      exfalso; apply (Hext x) in HP || apply (Hext x) in HQ; try done;
      by left.
  - intros y Hy. apply Hext. by right.
Qed.

Section FanOut.
Context {S : Type} `{SinkOps S}.
Implicit Type σ : ControllerRef → S.

Lemma sendEventToClient_ok (client : SSEClient) (event : SSEEvent) σ :
  (sendEventToClient client event σ).1 = true ↔ writable event σ client.
Proof.
  unfold sendEventToClient, writable.
  destruct (enqueue (σ (controller client)) (formatSSEMessage event)); simpl.
  - split; [by eauto|done].
  - split; [done|by intros [??]].
Qed.

Lemma sendEventToClient_store (client : SSEClient) (event : SSEEvent) σ
    (r : ControllerRef) :
  (sendEventToClient client event σ).2 r
  = if decide (controller client = r) then after_write event (σ r) else σ r.
Proof.
  unfold sendEventToClient, after_write. case_decide as Hr.
  - subst r.
    destruct (enqueue (σ (controller client)) (formatSSEMessage event)); simpl;
      [by rewrite fn_lookup_insert|done].
  - destruct (enqueue (σ (controller client)) (formatSSEMessage event)); simpl;
      [by rewrite fn_lookup_insert_ne|done].
Qed.

Lemma sendEventToClients_nil (event : SSEEvent) σ :
  sendEventToClients [] event σ = (0, σ).
Proof. done. Qed.

Lemma sendEventToClients_cons (client : SSEClient) (rest : list SSEClient)
    (event : SSEEvent) σ :
  sendEventToClients (client :: rest) event σ
  = let sent := sendEventToClient client event σ in
    let others := sendEventToClients rest event sent.2 in
    ((if sent.1 then 1 else 0) + others.1, others.2).
Proof.
  unfold sendEventToClients. simpl.
  destruct (sendEventToClient client event σ) as [ok σ1]. simpl.
  destruct (send_each rest event σ1) as [results σ2]. simpl.
  destruct ok.
  - by rewrite filter_cons_True.
  - by rewrite filter_cons_False.
Qed.

Lemma sendEventToClients_independent (targets : list SSEClient)
    (event : SSEEvent) σ :
  NoDup (controller <$> targets) →
  (sendEventToClients targets event σ).1
  = length (filter (writable event σ) targets)
  ∧ ∀ r, (sendEventToClients targets event σ).2 r
         = if decide (r ∈ controller <$> targets)
           then after_write event (σ r) else σ r.
Proof.
  revert σ. induction targets as [|client rest IH]; intros σ Hdistinct.
  - split; [done|]. intros r. rewrite decide_False; [done|].
    apply not_elem_of_nil.
  - rewrite fmap_cons in Hdistinct. apply list.NoDup_cons in Hdistinct as [Hhead Hrest].
    rewrite sendEventToClients_cons. simpl.
    destruct (IH (sendEventToClient client event σ).2 Hrest) as [Hcount Hstore].
    split.
    + rewrite Hcount.
      rewrite (filter_ext_in (writable event (sendEventToClient client event σ).2)
                 (writable event σ) rest).
      2:{ intros other Hother. unfold writable.
          rewrite sendEventToClient_store, decide_False; [done|].
          intros Heq. apply Hhead. rewrite Heq.
          apply list_elem_of_fmap. by eauto. }
      pose proof (sendEventToClient_ok client event σ) as Hok.
      destruct (sendEventToClient client event σ).1.
      * rewrite filter_cons_True by (by apply Hok). done.
      * rewrite filter_cons_False; [done|]. intros Hw. apply Hok in Hw. done.
    + intros r. rewrite Hstore, sendEventToClient_store, ?fmap_cons.
      destruct (decide (r ∈ controller <$> rest)) as [Hin|Hnotin].
      * rewrite decide_False by (intros Heq; apply Hhead; by rewrite Heq).
        rewrite decide_True; [done|]. by right.
      * destruct (decide (controller client = r)) as [->|Hne].
        -- rewrite decide_True; [done|]. by left.
        -- rewrite decide_False; [done|].
           intros [->|?]%elem_of_cons; done.
Qed.

(** C6.  [sendEventToClients] returns the number of sends that succeeded.
    The empty list gives 0 and writes nothing.  A send that fails counts
    for nothing and the sends to the handles after it are made all the
    same.  When the handles have sinks of their own, the result is the
    number of handles whose sink accepts the write, every such sink gets the
    write, and every other sink is left as it was.  With three handles,
    one of which has a sink that throws, the result is 2. *)
Theorem sendEventToClients_counts_successes :
  (∀ (event : SSEEvent) σ, sendEventToClients [] event σ = (0, σ))
  ∧ (∀ (client : SSEClient) (rest : list SSEClient) (event : SSEEvent) σ,
       let sent := sendEventToClient client event σ in
       let others := sendEventToClients rest event sent.2 in
       sendEventToClients (client :: rest) event σ
       = ((if sent.1 then 1 else 0) + others.1, others.2)
       ∧ (sent.1 = true ↔ writable event σ client))
  ∧ (∀ (targets : list SSEClient) (event : SSEEvent) σ,
       NoDup (controller <$> targets) →
       (sendEventToClients targets event σ).1
       = length (filter (writable event σ) targets)
       ∧ length (filter (writable event σ) targets)
         + length (filter (λ client, ¬ writable event σ client) targets)
         = length targets
       ∧ ∀ r, (sendEventToClients targets event σ).2 r
              = if decide (r ∈ controller <$> targets)
                then after_write event (σ r) else σ r)
  ∧ (∀ (c1 c2 c3 : SSEClient) (event : SSEEvent) σ,
       NoDup (controller <$> [c1; c2; c3]) →
       length (filter (λ client, ¬ writable event σ client) [c1; c2; c3]) = 1 →
       (sendEventToClients [c1; c2; c3] event σ).1 = 2).
Proof.
  assert (∀ (targets : list SSEClient) (event : SSEEvent) σ,
            length (filter (writable event σ) targets)
            + length (filter (λ client, ¬ writable event σ client) targets)
            = length targets) as Hsplit.
  { intros targets event σ. induction targets as [|client rest IH]; [done|].
    rewrite !filter_cons.
    destruct (decide (writable event σ client)) as [Hw|Hw].
    - rewrite decide_False by (intros Hn; by apply Hn). simpl. lia.
    - rewrite decide_True by done. simpl. lia. }
  split; [apply sendEventToClients_nil|]. split; [|split].
  - intros client rest event σ sent others. split.
    + apply sendEventToClients_cons.
    + apply sendEventToClient_ok.
  - intros targets event σ Hdistinct.
    destruct (sendEventToClients_independent targets event σ Hdistinct)
      as [Hcount Hstore].
    split; [done|]. split; [apply Hsplit|done].
  - intros c1 c2 c3 event σ Hdistinct Hone.
    destruct (sendEventToClients_independent [c1; c2; c3] event σ Hdistinct)
      as [-> _].
    pose proof (Hsplit [c1; c2; c3] event σ) as Htotal.
    rewrite Hone in Htotal. simpl in Htotal. lia.
Qed.

End FanOut.

Lemma sendEventToClients_counts_successes_witness :
  (sendEventToClients [client_a; client_b; client_c] notification_hi one_closed).1
  = 2.
Proof.
  refine (proj2 (proj2 (proj2 sendEventToClients_counts_successes))
            client_a client_b client_c notification_hi one_closed _ _).
  - apply (bool_decide_unpack _). vm_compute. exact I.
  - vm_compute. reflexivity.
Defined.

(** ** Sending through the service *)

Lemma getAllClients_spec (m : SSEClientManager) (client : SSEClient) :
  client ∈ getAllClients m ↔ ∃ i, clients m !! i = Some client.
Proof.
  unfold getAllClients. rewrite list_elem_of_fmap. split.
  - intros ([i c] & -> & Hin). exists i. by apply elem_of_map_to_list.
  - intros (i & Hi). exists (i, client). split; [done|].
    by apply elem_of_map_to_list.
Qed.

Lemma getAllClients_length (m : SSEClientManager) :
  length (getAllClients m) = getClientCount m.
Proof.
  unfold getAllClients, getClientCount.
  by rewrite length_fmap, length_map_to_list.
Qed.

Lemma getClientsByFilter_unset (m : SSEClientManager) :
  getClientsByFilter unset_filter m = [].
Proof. done. Qed.

Section SendEvent.
Context {S : Type} `{SinkOps S}.
Implicit Type σ : ControllerRef → S.

Lemma sendEvent_with_no_target
    (fanout : list SSEClient → SSEEvent → (ControllerRef → S)
              → Outcome nat * (ControllerRef → S))
    (event : SSEEvent) (filter : option ClientFilter)
    (svc : SSEService) (rt : Runtime S) :
  targets_of filter (clientManager svc) = [] →
  sendEvent_with fanout event filter svc rt = (Returned 0, svc, rt).
Proof.
  unfold sendEvent_with, targets_of. intros Hnone.
  destruct filter; by rewrite Hnone.
Qed.

Lemma sendEvent_with_targets
    (fanout : list SSEClient → SSEEvent → (ControllerRef → S)
              → Outcome nat * (ControllerRef → S))
    (event : SSEEvent) (filter : option ClientFilter)
    (svc : SSEService) (rt : Runtime S) :
  targets_of filter (clientManager svc) ≠ [] →
  sendEvent_with fanout event filter svc rt
  = match fanout (targets_of filter (clientManager svc)) event (controllers rt) with
    | (Returned successCount, σ) =>
        (Returned successCount,
         with_manager svc (incrementEventsDispatched (clientManager svc)),
         with_controllers rt σ)
    | (Thrown error, σ) =>
        (Thrown error,
         with_manager svc (incrementErrors (clientManager svc)),
         with_controllers rt σ)
    end.
Proof.
  unfold sendEvent_with, targets_of. intros Hsome.
  destruct filter as [f|].
  - by destruct (getClientsByFilter f (clientManager svc)).
  - by destruct (getAllClients (clientManager svc)).
Qed.


(** C10.  On a registry with at least one handle, [sendEvent] with a filter
    object none of whose fields is set returns 0 and leaves the service
    and every sink as they were: nobody is sent the event; this is the
    filter [sendNotification] builds from empty options.  [sendEvent]
    without a filter sends to the list of all handles, which holds each
    registered handle and has the size of the registry. *)
Theorem unset_filter_selects_nobody (event : SSEEvent) (svc : SSEService)
    (rt : Runtime S) :
  (1 ≤ getClientCount (clientManager svc))%nat →
  sendEvent event (Some unset_filter) svc rt = (Returned 0, svc, rt)
  ∧ (∀ (now : Z) (timestamp message kind : string),
       sendNotification now timestamp message kind no_options svc rt
       = (Returned 0, svc, rt))
  ∧ (let everyone := getAllClients (clientManager svc) in
     let sent := sendEventToClients everyone event (controllers rt) in
     sendEvent event None svc rt
     = (Returned sent.1,
        with_manager svc (incrementEventsDispatched (clientManager svc)),
        with_controllers rt sent.2)
     ∧ length everyone = getClientCount (clientManager svc)
     ∧ ∀ client, client ∈ everyone
                 ↔ ∃ i, clients (clientManager svc) !! i = Some client).
Proof.
  intros Hsome. split; [done|]. split; [done|].
  split; [|split; [apply getAllClients_length | apply getAllClients_spec]].
  unfold sendEvent. rewrite sendEvent_with_targets.
  - unfold dispatcher_fanout, targets_of.
    by destruct (sendEventToClients _ event (controllers rt)).
  - unfold targets_of. intros Hnil.
    pose proof (getAllClients_length (clientManager svc)) as Hlen.
    rewrite Hnil in Hlen. simpl in Hlen. lia.
Qed.

End SendEvent.


Lemma unset_filter_selects_nobody_witness :
  sendEvent notification_hi (Some unset_filter) service_abc.1 service_abc.2
  = (Returned 0, service_abc.1, service_abc.2).
Proof.
  refine (proj1 (unset_filter_selects_nobody notification_hi
                   service_abc.1 service_abc.2 _)).
  vm_compute. lia.
Defined.

(** * Further properties of the registry *)

(** [addClient] below the limit: the call returns, the handle is found
    under its id, the other ids are as before and [totalConnections] has
    grown by one.  With an id that was free the registry has one handle
    more; with an id that was registered the handle of that id is replaced
    and the size stays. *)
Theorem addClient_registers (client : SSEClient) (m : SSEClientManager) :
  (Z.of_nat (getClientCount m) < maxClients (config m))%Z →
  let after := (addClient client m).2 in
  (addClient client m).1 = Returned tt
  ∧ getClient (id client) after = Some client
  ∧ (∀ i, i ≠ id client → getClient i after = getClient i m)
  ∧ totalConnections (metrics after) = totalConnections (metrics m) + 1
  ∧ (getClient (id client) m = None →
     getClientCount after = getClientCount m + 1)
  ∧ (is_Some (getClient (id client) m) →
     getClientCount after = getClientCount m).
Proof.
  unfold getClientCount, getClient, addClient. intros Hroom.
  destruct (Z.leb_spec (maxClients (config m)) (Z.of_nat (size (clients m))));
    [lia|]. simpl.
  split; [done|]. split; [apply lookup_insert_eq|].
  split; [by intros i Hi; rewrite lookup_insert_ne|]. split; [done|]. split.
  - intros Hfree. rewrite map_size_insert_None by done. lia.
  - intros Hold. by rewrite map_size_insert_Some.
Qed.

Lemma addClient_registers_witness :
  getClient "b" (addClient client_b (new_SSEClientManager defaultConfig)).2
  = Some client_b.
Proof.
  refine (proj1 (proj2
            (addClient_registers client_b (new_SSEClientManager defaultConfig) _))).
  vm_compute. reflexivity.
Defined.

Section RegistryRoundTrip.
Context {S : Type} `{SinkOps S}.
Implicit Type σ : ControllerRef → S.

Lemma index_remove_add (key clientId : string) (index : gmap string (gset string)) :
  (∀ members, index !! key = Some members →
              (clientId ∉ members) ∧ members ≠ ∅) →
  index_remove key clientId (index_add key clientId index) = index.
Proof.
  intros Hkey. apply map_eq. intros k. rewrite index_remove_lookup.
  destruct (decide (key = k)) as [<-|Hk];
    [|by rewrite index_add_lookup, decide_False].
  rewrite index_add_lookup, decide_True by done. simpl.
  destruct (index !! key) as [members|] eqn:Hmembers; simpl.
  - destruct (Hkey members eq_refl) as [Hnotin Hnonempty].
    assert (({[clientId]} ∪ members) ∖ {[clientId]} = members) as ->.
    { apply set_eq. intros x.
      rewrite elem_of_difference, elem_of_union, !elem_of_singleton.
      split; [by intros [[?|?] ?]|].
      intros Hx. split; [by right|]. by intros ->. }
    by rewrite decide_False.
  - assert (({[clientId]} ∪ ∅) ∖ {[clientId]} = (∅ : gset string)) as ->.
    { apply set_eq. intros x.
      rewrite elem_of_difference, elem_of_union, !elem_of_singleton.
      split; [|by intros ?%not_elem_of_empty].
      intros [[?|?%not_elem_of_empty] ?]; done. }
    by rewrite decide_True.
Qed.

Lemma index_exact_free (key : SSEClient → option string)
    (registered : gmap string SSEClient) (index : gmap string (gset string))
    (k i : string) (members : gset string) :
  index_exact key registered index → registered !! i = None →
  index !! k = Some members → (i ∉ members) ∧ members ≠ ∅.
Proof.
  intros [Hexact Hnonempty] Hfree Hk. split; [|by eapply Hnonempty].
  intros Hin. destruct (proj1 (Hexact k i)) as (c & Hc & _); [by eauto|].
  congruence.
Qed.

(** Round trip: on a registry with exact indexes, registering a handle
    under a free id and removing that id again gives back the primary map
    and both indexes; only [totalConnections] keeps the trace of the
    connection. *)
Theorem removeClient_undoes_addClient (client : SSEClient) (m : SSEClientManager) σ :
  registry_consistent m →
  getClient (id client) m = None →
  (Z.of_nat (getClientCount m) < maxClients (config m))%Z →
  let removed := removeClient (id client) (addClient client m).2 σ in
  removed.1.1 = true
  ∧ clients removed.1.2 = clients m
  ∧ userClientMap removed.1.2 = userClientMap m
  ∧ sessionClientMap removed.1.2 = sessionClientMap m
  ∧ totalConnections (metrics removed.1.2) = totalConnections (metrics m) + 1.
Proof.
  unfold getClient, getClientCount. intros (_ & Huser & Hsession) Hfree Hroom.
  unfold addClient.
  destruct (Z.leb_spec (maxClients (config m)) (Z.of_nat (size (clients m))));
    [lia|]. simpl.
  unfold removeClient. simpl. rewrite lookup_insert_eq. simpl.
  split; [done|]. split; [|split; [|split; [|done]]].
  - rewrite delete_insert_eq. by apply delete_id.
  - destruct (JS.truthy (userId client)) as [u|]; [|done].
    apply index_remove_add. intros members.
    by apply (index_exact_free user_key (clients m)).
  - destruct (JS.truthy (sessionId client)) as [s|]; [|done].
    apply index_remove_add. intros members.
    by apply (index_exact_free session_key (clients m)).
Qed.

(** [removeClient] of a registered id: it returns [true], the id is free
    afterwards, the other ids and the counters are as before, the registry
    has one handle less, and [close] was tried on the controller of the
    handle: a [close] that throws leaves that controller as it was and
    does not keep the handle registered. *)
Theorem removeClient_deregisters (clientId : string) (client : SSEClient)
    (m : SSEClientManager) σ :
  getClient clientId m = Some client →
  let removed := removeClient clientId m σ in
  removed.1.1 = true
  ∧ getClient clientId removed.1.2 = None
  ∧ (∀ i, i ≠ clientId → getClient i removed.1.2 = getClient i m)
  ∧ getClientCount removed.1.2 + 1 = getClientCount m
  ∧ metrics removed.1.2 = metrics m
  ∧ (∀ r, removed.2 r
          = if decide (r = controller client)
            then default (σ r) (close (σ r)) else σ r).
Proof.
  unfold getClient, getClientCount, removeClient. intros Hreg. rewrite Hreg.
  simpl. split; [done|]. split; [apply lookup_delete_eq|].
  split; [by intros i Hi; rewrite lookup_delete_ne|]. split.
  - rewrite map_size_delete_Some by eauto.
    assert (size (clients m) ≠ 0); [|lia].
    intros Hzero. apply map_size_empty_iff in Hzero.
    by rewrite Hzero, lookup_empty in Hreg.
  - split; [done|]. intros r. unfold close_controller.
    case_decide as Hr.
    + subst r. destruct (close (σ (controller client))); simpl; [|done].
      by rewrite fn_lookup_insert.
    + destruct (close (σ (controller client))); simpl; [|done].
      by rewrite fn_lookup_insert_ne.
Qed.

(** Admission control: whatever [addClient] and [removeClient] calls are
    made on a new registry, it never holds more handles than [maxClients]
    (none when [maxClients] is not positive), the number of handles never
    exceeds [totalConnections], and the configuration is the one given. *)
Theorem registry_never_exceeds_capacity (cfg : SSEServiceConfig) σ
    (ops : list RegistryOp) :
  let m := (run_ops ops (new_SSEClientManager cfg, σ)).1 in
  (Z.of_nat (getClientCount m) ≤ Z.max 0 (maxClients cfg))%Z
  ∧ (getClientCount m ≤ totalConnections (metrics m))%nat
  ∧ config m = cfg.
Proof.
  unfold getClientCount.
  assert (∀ (st : SSEClientManager * (ControllerRef → S)),
            (Z.of_nat (size (clients st.1)) ≤ Z.max 0 (maxClients cfg))%Z
            ∧ (size (clients st.1) ≤ totalConnections (metrics st.1))%nat
            ∧ config st.1 = cfg →
            let m := (run_ops ops st).1 in
            (Z.of_nat (size (clients m)) ≤ Z.max 0 (maxClients cfg))%Z
            ∧ (size (clients m) ≤ totalConnections (metrics m))%nat
            ∧ config m = cfg) as Hrun.
  { induction ops as [|op ops IH]; intros st Hst; [done|].
    simpl. apply IH. destruct st as [m σ0]. destruct Hst as (Hsize & Htotal & Hcfg).
    simpl in *. destruct op as [client|clientId]; simpl.
    - unfold addClient. rewrite Hcfg.
      destruct (Z.leb_spec (maxClients cfg) (Z.of_nat (size (clients m)))); simpl;
        [done|].
      split; [|split; [|done]].
      + destruct (clients m !! id client) as [old|] eqn:Hold.
        * by rewrite map_size_insert_Some by eauto.
        * rewrite map_size_insert_None by done. lia.
      + destruct (clients m !! id client) as [old|] eqn:Hold.
        * rewrite map_size_insert_Some by eauto. lia.
        * rewrite map_size_insert_None by done. lia.
    - pose proof (removeClient_clients clientId m σ0) as Hclients.
      pose proof (removeClient_metrics clientId m σ0) as Hmetrics.
      pose proof (removeClient_config clientId m σ0) as Hconfig.
      destruct (removeClient clientId m σ0) as [[found m'] σ']. simpl in *.
      rewrite Hclients, Hmetrics, Hconfig.
      assert (size (delete clientId (clients m)) ≤ size (clients m))%nat as Hle.
      { destruct (clients m !! clientId) as [old|] eqn:Hold.
        - rewrite map_size_delete_Some by eauto. lia.
        - by rewrite map_size_delete_None. }
      split; [lia|]. split; [lia|done]. }
  apply Hrun. simpl. rewrite map_size_empty. split; [lia|]. split; [lia|done].
Qed.

End RegistryRoundTrip.

Lemma removeClient_undoes_addClient_witness :
  clients (removeClient "d" (addClient client_d registry_abc.1).2 registry_abc.2).1.2
  = clients registry_abc.1.
Proof.
  refine (proj1 (proj2
            (removeClient_undoes_addClient client_d registry_abc.1 registry_abc.2
               _ _ _))).
  - apply (run_ops_consistent [OpAdd client_a; OpAdd client_b; OpAdd client_c]
             (new_SSEClientManager defaultConfig, all_open) 3).
    + vm_compute. reflexivity.
    + apply new_SSEClientManager_consistent.
  - vm_compute. reflexivity.
  - vm_compute. reflexivity.
Defined.

Lemma removeClient_deregisters_witness :
  getClientCount (removeClient "b" registry_abc.1 one_closed).1.2 + 1
  = getClientCount registry_abc.1.
Proof.
  refine (proj1 (proj2 (proj2 (proj2
            (removeClient_deregisters "b" client_b registry_abc.1 one_closed _))))).
  vm_compute. reflexivity.
Defined.

(** * Selection of handles *)

Lemma truthy_Some (o : option string) (s : string) :
  JS.truthy o = Some s ↔ o = Some s ∧ s ≠ EmptyString.
Proof.
  destruct o as [[|c t]|]; simpl.
  - split; [done|]. by intros [[= <-] ?].
  - split; [by intros [= <-]|]. by intros [[= <-] _].
  - split; [done|]. by intros [? _].
Qed.

Lemma resolve_ids_spec (ids : list string) (m : SSEClientManager) (c : SSEClient) :
  c ∈ resolve_ids ids m ↔ ∃ i, i ∈ ids ∧ getClient i m = Some c.
Proof. unfold resolve_ids, getClient. apply list_elem_of_omap. Qed.

Lemma resolve_ids_length (ids : list string) (m : SSEClientManager) :
  (length (resolve_ids ids m) ≤ length ids)%nat.
Proof.
  unfold resolve_ids. induction ids as [|i ids IH]; [done|].
  csimpl. destruct (clients m !! i); simpl; lia.
Qed.

Lemma resolve_ids_NoDup (ids : list string) (m : SSEClientManager) :
  keyed_by_id (clients m) → NoDup ids → NoDup (resolve_ids ids m).
Proof.
  intros Hid. induction 1 as [|i ids Hnotin Hnodup IH]; [constructor|].
  unfold resolve_ids in *. csimpl.
  destruct (clients m !! i) as [c|] eqn:Hc; [|done].
  constructor; [|done].
  intros (j & Hj & Hcj)%list_elem_of_omap.
  apply Hid in Hc, Hcj. congruence.
Qed.

Lemma index_resolve (key : SSEClient → option string) (m : SSEClientManager)
    (index : gmap string (gset string)) (k : string) :
  keyed_by_id (clients m) → index_exact key (clients m) index →
  let found :=
    match index !! k with
    | Some members => resolve_ids (elements members) m
    | None => []
    end in
  NoDup found
  ∧ ∀ c, c ∈ found ↔ ∃ i, clients m !! i = Some c ∧ key c = Some k.
Proof.
  intros Hid [Hexact _]. destruct (index !! k) as [members|] eqn:Hk; simpl.
  - split; [apply resolve_ids_NoDup; [done|apply NoDup_elements]|].
    intros c. rewrite resolve_ids_spec. unfold getClient. split.
    + intros (i & Hi & Hc). apply elem_of_elements in Hi.
      destruct (proj1 (Hexact k i)) as (c' & Hc' & Hkey); [by eauto|].
      exists i. split; [done|]. congruence.
    + intros (i & Hc & Hkey).
      destruct (proj2 (Hexact k i)) as (members' & Hm & Hi); [by eauto|].
      exists i. split; [|done]. apply elem_of_elements. congruence.
  - split; [constructor|]. intros c. split; [by intros ?%not_elem_of_nil|].
    intros (i & Hc & Hkey).
    destruct (proj2 (Hexact k i)) as (members' & Hm & Hi); [by eauto|].
    congruence.
Qed.

(** A filter with [clientIds]: the handles selected are those of the ids
    of the list that are registered, ids that are not registered are
    passed over without an error, and [userId] and [sessionId] of the
    filter are not looked at. *)
Theorem getClientsByFilter_clientIds (ids : list string)
    (u s : option string) (m : SSEClientManager) :
  let selected :=
    getClientsByFilter
      {| filter_userId := u; filter_sessionId := s; clientIds := Some ids |} m in
  (∀ c, c ∈ selected ↔ ∃ i, i ∈ ids ∧ getClient i m = Some c)
  ∧ (length selected ≤ length ids)%nat
  ∧ selected
    = getClientsByFilter
        {| filter_userId := None; filter_sessionId := None;
           clientIds := Some ids |} m.
Proof.
  simpl. split; [intros c; apply resolve_ids_spec|].
  split; [apply resolve_ids_length|done].
Qed.

(** A filter without [clientIds], on a registry with exact indexes: the
    handles selected are the registered handles of the user of the filter,
    each once, followed by the registered handles of the session of the
    filter, each once.  A handle of that user and of that session is
    therefore selected twice. *)
Theorem getClientsByFilter_user_then_session (f : ClientFilter)
    (m : SSEClientManager) :
  clientIds f = None →
  registry_consistent m →
  ∃ of_user of_session,
    getClientsByFilter f m = (of_user ++ of_session)%list
    ∧ NoDup of_user ∧ NoDup of_session
    ∧ (∀ c, c ∈ of_user
            ↔ (∃ i, getClient i m = Some c)
              ∧ ∃ u, filter_userId f = Some u ∧ u ≠ EmptyString
                     ∧ userId c = Some u)
    ∧ (∀ c, c ∈ of_session
            ↔ (∃ i, getClient i m = Some c)
              ∧ ∃ s, filter_sessionId f = Some s ∧ s ≠ EmptyString
                     ∧ sessionId c = Some s).
Proof.
  intros Hids (Hid & Huser & Hsession). unfold getClientsByFilter, getClient.
  rewrite Hids. eexists _, _. split; [done|].
  assert (∀ (field : SSEClient → option string) (wanted : option string)
            (index : gmap string (gset string)),
            index_exact (λ c, JS.truthy (field c)) (clients m) index →
            let found :=
              match JS.truthy wanted with
              | Some k =>
                  match index !! k with
                  | Some members => resolve_ids (elements members) m
                  | None => []
                  end
              | None => []
              end in
            NoDup found
            ∧ ∀ c, c ∈ found
                   ↔ (∃ i, clients m !! i = Some c)
                     ∧ ∃ k, wanted = Some k ∧ k ≠ EmptyString
                            ∧ field c = Some k) as Hpart.
  { intros field wanted index Hexact.
    destruct (JS.truthy wanted) as [k|] eqn:Hwanted; simpl.
    - apply truthy_Some in Hwanted as [-> Hk].
      destruct (index_resolve _ m index k Hid Hexact) as [Hnodup Hspec].
      split; [done|]. intros c. rewrite Hspec. split.
      + intros (i & Hc & Hkey). apply truthy_Some in Hkey as [Hkey _].
        split; [by eauto|]. by exists k.
      + intros [[i Hc] (k' & [= <-] & _ & Hfield)].
        exists i. split; [done|]. by apply truthy_Some.
    - split; [constructor|]. intros c. split; [by intros ?%not_elem_of_nil|].
      intros [_ (k & -> & Hk & _)].
      assert (JS.truthy (Some k) = Some k) as E by (by apply truthy_Some).
      congruence. }
  destruct (Hpart userId (filter_userId f) (userClientMap m) Huser) as [? ?].
  destruct (Hpart sessionId (filter_sessionId f) (sessionClientMap m) Hsession)
    as [? ?].
  done.
Qed.

Lemma getClientsByFilter_user_then_session_witness :
  ∃ of_user of_session,
    getClientsByFilter
      {| filter_userId := Some "u1"; filter_sessionId := Some "s1";
         clientIds := None |} registry_abc.1
    = (of_user ++ of_session)%list
    ∧ client_a ∈ of_user ∧ client_a ∈ of_session.
Proof.
  destruct (getClientsByFilter_user_then_session
              {| filter_userId := Some "u1"; filter_sessionId := Some "s1";
                 clientIds := None |} registry_abc.1 eq_refl)
    as (of_user & of_session & Hsplit & _ & _ & Huser & Hsession).
  - apply (run_ops_consistent [OpAdd client_a; OpAdd client_b; OpAdd client_c]
             (new_SSEClientManager defaultConfig, all_open) 3).
    + vm_compute. reflexivity.
    + apply new_SSEClientManager_consistent.
  - exists of_user, of_session. split; [exact Hsplit|]. split.
    + apply Huser. split; [exists "a"; vm_compute; reflexivity|].
      exists "u1". by vm_compute.
    + apply Hsession. split; [exists "a"; vm_compute; reflexivity|].
      exists "s1". by vm_compute.
Defined.

(** * Delivery *)

Section Delivery.
Context {S : Type} `{SinkOps S}.
Implicit Type σ : ControllerRef → S.

Lemma sendEvent_delivers (event : SSEEvent) (filter : option ClientFilter)
    (svc : SSEService) (rt : Runtime S) :
  let targets := targets_of filter (clientManager svc) in
  let sent := sendEvent event filter svc rt in
  NoDup (controller <$> targets) →
  sent.1.1 = Returned (length (base.filter (writable event (controllers rt)) targets))
  ∧ ∀ r, controllers sent.2 r
         = if decide (r ∈ controller <$> targets)
           then after_write event (controllers rt r) else controllers rt r.
Proof.
  intros targets sent Hdistinct. subst sent. unfold sendEvent.
  destruct (decide (targets = [])) as [Hnone|Hsome].
  - rewrite sendEvent_with_no_target by done. simpl. rewrite Hnone.
    split; [done|]. intros r. rewrite decide_False; [done|].
    apply not_elem_of_nil.
  - rewrite sendEvent_with_targets by done. fold targets.
    unfold dispatcher_fanout.
    destruct (sendEventToClients_independent targets event (controllers rt)
                Hdistinct) as [Hcount Hstore].
    destruct (sendEventToClients targets event (controllers rt)) as [n σ'].
    simpl in *. by rewrite Hcount.
Qed.

Lemma own_controllers_NoDup (m : SSEClientManager) (targets : list SSEClient) :
  keyed_by_id (clients m) → own_controllers m →
  (∀ c, c ∈ targets → ∃ i, clients m !! i = Some c) →
  NoDup targets → NoDup (controller <$> targets).
Proof.
  intros Hid Hown Hreg Hnodup. apply NoDup_fmap_2_strong; [|done].
  intros c d Hc Hd Hsame.
  destruct (Hreg c Hc) as [i Hi]. destruct (Hreg d Hd) as [j Hj].
  assert (i = j) as -> by (by eapply Hown). congruence.
Qed.

(** [sendToUser]: on a registry with exact indexes whose handles have
    controllers of their own, the handles of the user, and they alone, are
    written to, once each; the number returned is the number of them whose
    sink took the write; the sink of every other handle is as it was; and
    no handle is removed, whether its write failed or not.  The empty
    string names no user: [sendToUser] of it selects nobody, also when a
    handle has the empty string as its [userId], returns 0 and writes
    nothing. *)
Theorem sendToUser_delivers (u : string) (event : SSEEvent)
    (svc : SSEService) (rt : Runtime S) :
  registry_consistent (clientManager svc) →
  own_controllers (clientManager svc) →
  let sent := sendToUser u event svc rt in
  let of_user := λ c, (∃ i, getClient i (clientManager svc) = Some c)
                      ∧ userId c = Some u ∧ u ≠ EmptyString in
  (∃ targets,
      NoDup targets ∧ (∀ c, c ∈ targets ↔ of_user c)
      ∧ sent.1.1
        = Returned (length (base.filter (writable event (controllers rt)) targets)))
  ∧ (∀ c, of_user c →
          controllers sent.2 (controller c)
          = after_write event (controllers rt (controller c)))
  ∧ (∀ r, (∀ c, of_user c → controller c ≠ r) →
          controllers sent.2 r = controllers rt r)
  ∧ clients (clientManager sent.1.2) = clients (clientManager svc)
  ∧ (u = EmptyString → sent = (Returned 0, svc, rt)).
Proof.
  intros (Hid & Huser & _) Hown sent of_user. subst sent. unfold sendToUser.
  set (f := {| filter_userId := Some u; filter_sessionId := None;
               clientIds := None |}).
  set (m := clientManager svc) in *.
  assert (NoDup (targets_of (Some f) m)
          ∧ (∀ c, c ∈ targets_of (Some f) m ↔ of_user c)
          ∧ (u = EmptyString → targets_of (Some f) m = [])) as (Hnodup & Hof_user & Hempty).
  { destruct (decide (u = EmptyString)) as [->|Hu].
    - assert (targets_of (Some f) m = []) as -> by done.
      split; [constructor|]. split; [|done].
      intros c. split; [by intros ?%not_elem_of_nil|]. by intros (_ & _ & ?).
    - destruct (index_resolve user_key m (userClientMap m) u Hid Huser)
        as [Hnodup Hspec].
      assert (targets_of (Some f) m
              = match userClientMap m !! u with
                | Some members => resolve_ids (elements members) m
                | None => []
                end) as Htargets.
      { unfold targets_of, getClientsByFilter, f.
        cbn [clientIds filter_userId filter_sessionId].
        assert (JS.truthy (Some u) = Some u) as -> by (by apply truthy_Some).
        simpl. by rewrite app_nil_r. }
      rewrite <- Htargets in Hnodup, Hspec.
      split; [done|]. split; [|done].
      intros c. rewrite Hspec. unfold of_user, getClient, user_key. split.
      + intros (i & Hc & Hkey). apply truthy_Some in Hkey as [Hkey _]. by eauto.
      + intros [[i Hc] [Hkey _]]. exists i. split; [done|]. by apply truthy_Some. }
  destruct (sendEvent_delivers event (Some f) svc rt) as [Hcount Hstore].
  { apply (own_controllers_NoDup m); [done|done| |done].
    intros c [Hreg _]%Hof_user. exact Hreg. }
  split; [|split; [|split; [|split]]].
  - exists (targets_of (Some f) m). split; [done|]. split; [done|].
    exact Hcount.
  - intros c Hc. rewrite Hstore, decide_True; [done|].
    apply list_elem_of_fmap. exists c. split; [done|]. by apply Hof_user.
  - intros r Hr. rewrite Hstore, decide_False; [done|].
    intros (c & -> & Hc)%list_elem_of_fmap. apply Hof_user in Hc.
    by apply (Hr c).
  - unfold sendEvent, sendEvent_with.
    destruct (length _ =? 0)%nat; [done|]. unfold dispatcher_fanout.
    by destruct (sendEventToClients _ event (controllers rt)).
  - intros Hu. unfold sendEvent. apply sendEvent_with_no_target. by apply Hempty.
Qed.

(** [broadcast]: when the registered handles have controllers of their
    own, every registered handle is written to once, the number returned
    is the number of registered handles whose sink took the write, and the
    other controllers of the runtime are as they were. *)
Theorem broadcast_delivers (event : SSEEvent) (svc : SSEService) (rt : Runtime S) :
  keyed_by_id (clients (clientManager svc)) →
  own_controllers (clientManager svc) →
  let sent := broadcast event svc rt in
  let everyone := getAllClients (clientManager svc) in
  sent.1.1 = Returned (length (base.filter (writable event (controllers rt)) everyone))
  ∧ length everyone = getClientCount (clientManager svc)
  ∧ (∀ i c, getClient i (clientManager svc) = Some c →
            controllers sent.2 (controller c)
            = after_write event (controllers rt (controller c)))
  ∧ (∀ r, (∀ i c, getClient i (clientManager svc) = Some c → controller c ≠ r) →
          controllers sent.2 r = controllers rt r).
Proof.
  intros Hid Hown sent everyone. subst sent. unfold broadcast.
  destruct (sendEvent_delivers event None svc rt) as [Hcount Hstore].
  { apply (own_controllers_NoDup (clientManager svc)); [done|done| |].
    - intros c. apply getAllClients_spec.
    - unfold targets_of, getAllClients.
      apply NoDup_fmap_2_strong; [|apply NoDup_map_to_list].
      intros [i c] [j d] Hc Hd. simpl. intros ->.
      apply elem_of_map_to_list in Hc, Hd.
      assert (i = j) as -> by (by eapply Hown). done. }
  split; [done|]. split; [apply getAllClients_length|]. split.
  - intros i c Hc. rewrite Hstore, decide_True; [done|].
    apply list_elem_of_fmap. exists c. split; [done|].
    apply getAllClients_spec. by eauto.
  - intros r Hr. rewrite Hstore, decide_False; [done|].
    intros (c & -> & [i Hc]%getAllClients_spec)%list_elem_of_fmap.
    by apply (Hr i c).
Qed.

(** A send is not an eviction: whatever the filter and whatever the
    fan-out does, [sendEvent] leaves the primary map, both indexes, the
    configuration, [totalConnections], the timers of the service and the
    intervals of the runtime as they were. *)
Theorem sendEvent_keeps_registry
    (fanout : list SSEClient → SSEEvent → (ControllerRef → S)
              → Outcome nat * (ControllerRef → S))
    (event : SSEEvent) (filter : option ClientFilter)
    (svc : SSEService) (rt : Runtime S) :
  let sent := sendEvent_with fanout event filter svc rt in
  clients (clientManager sent.1.2) = clients (clientManager svc)
  ∧ userClientMap (clientManager sent.1.2) = userClientMap (clientManager svc)
  ∧ sessionClientMap (clientManager sent.1.2) = sessionClientMap (clientManager svc)
  ∧ config (clientManager sent.1.2) = config (clientManager svc)
  ∧ totalConnections (metrics (clientManager sent.1.2))
    = totalConnections (metrics (clientManager svc))
  ∧ svc_heartbeatInterval sent.1.2 = svc_heartbeatInterval svc
  ∧ svc_cleanupInterval sent.1.2 = svc_cleanupInterval svc
  ∧ intervals sent.2 = intervals rt.
Proof.
  unfold sendEvent_with. simpl.
  destruct (length _ =? 0)%nat; [done|].
  by destruct (fanout _ event (controllers rt)) as [[n|e] σ'].
Qed.

End Delivery.

Lemma NoDup_fmap_elem_inj {A B} (f : A → B) (l : list A) (x y : A) :
  NoDup (f <$> l) → x ∈ l → y ∈ l → f x = f y → x = y.
Proof.
  intros Hnodup [a Ha]%list_elem_of_lookup [b Hb]%list_elem_of_lookup Hsame.
  assert (a = b) as ->; [|congruence].
  apply (NoDup_lookup (f <$> l) a b (f x)); [done| |].
  - by rewrite list_lookup_fmap, Ha.
  - by rewrite list_lookup_fmap, Hb, Hsame.
Qed.

Lemma own_controllers_from_list (m : SSEClientManager) :
  NoDup (controller <$> getAllClients m) → own_controllers m.
Proof.
  unfold getAllClients. rewrite <- list_fmap_compose.
  intros Hnodup i j c d Hc Hd Hsame.
  apply elem_of_map_to_list in Hc, Hd.
  assert ((i, c) = (j, d)) as E; [|congruence].
  by apply (NoDup_fmap_elem_inj (controller ∘ snd) (map_to_list (clients m))).
Qed.

Lemma registry_abc_consistent : registry_consistent registry_abc.1.
Proof.
  apply (run_ops_consistent [OpAdd client_a; OpAdd client_b; OpAdd client_c]
           (new_SSEClientManager defaultConfig, all_open) 3).
  - vm_compute. reflexivity.
  - apply new_SSEClientManager_consistent.
Qed.

Lemma registry_abc_own_controllers : own_controllers registry_abc.1.
Proof.
  apply own_controllers_from_list, (bool_decide_unpack _). vm_compute. exact I.
Qed.

(** The service with the handles a and b of user u1 and c of user u2, the
    controller of b being closed. *)
Lemma sendToUser_delivers_witness :
  ∃ targets,
    NoDup targets
    ∧ (∀ c, c ∈ targets
            ↔ (∃ i, getClient i registry_abc.1 = Some c)
              ∧ userId c = Some "u1" ∧ "u1" ≠ EmptyString)
    ∧ (sendToUser "u1" notification_hi service_abc.1
         (with_controllers service_abc.2 one_closed)).1.1
      = Returned (length (base.filter (writable notification_hi one_closed) targets)).
Proof.
  refine (proj1 (sendToUser_delivers "u1" notification_hi service_abc.1
                   (with_controllers service_abc.2 one_closed) _ _)).
  - exact registry_abc_consistent.
  - exact registry_abc_own_controllers.
Defined.

(** A handle whose [userId] is the empty string is not reached by
    [sendToUser] of the empty string. *)
Example sendToUser_empty_string_selects_nobody :
  let m := (addClient client_e registry_abc.1).2 in
  getClient "e" m = Some client_e
  ∧ sendToUser EmptyString notification_hi (with_manager service_abc.1 m)
      service_abc.2
    = (Returned 0, with_manager service_abc.1 m, service_abc.2).
Proof. split; by vm_compute. Qed.

Lemma broadcast_delivers_witness :
  (broadcast notification_hi service_abc.1
     (with_controllers service_abc.2 one_closed)).1.1
  = Returned (length (base.filter (writable notification_hi one_closed)
                        (getAllClients registry_abc.1))).
Proof.
  refine (proj1 (broadcast_delivers notification_hi service_abc.1
                   (with_controllers service_abc.2 one_closed) _ _)).
  - exact (proj1 registry_abc_consistent).
  - exact registry_abc_own_controllers.
Defined.

Example deliveries_abc :
  (sendToUser "u1" notification_hi service_abc.1
     (with_controllers service_abc.2 one_closed)).1.1 = Returned 1
  ∧ (broadcast notification_hi service_abc.1
       (with_controllers service_abc.2 one_closed)).1.1 = Returned 2
  ∧ (broadcast notification_hi service_abc.1 service_abc.2).1.1 = Returned 3.
Proof. repeat split; by vm_compute. Qed.

(** * Shutdown, reset and the intervals *)

Section Lifecycle.
Context {S : Type} `{SinkOps S}.
Implicit Type σ : ControllerRef → S.

Lemma cleanup_metrics (m : SSEClientManager) σ :
  metrics (cleanup m σ).1 = metrics m.
Proof. apply remove_each_metrics. Qed.

Lemma cleanup_empty (m : SSEClientManager) σ :
  clients m = ∅ → cleanup m σ = (m, σ).
Proof. intros Hempty. unfold cleanup. by rewrite Hempty, map_to_list_empty. Qed.

Lemma shutdown_intervals (svc : SSEService) (rt : Runtime S) (t : nat) :
  intervals (shutdown svc rt).2 !! t
  = if decide (svc_heartbeatInterval svc = Some t ∨ svc_cleanupInterval svc = Some t)
    then None else intervals rt !! t.
Proof.
  unfold shutdown.
  set (rt1 := match svc_heartbeatInterval svc with
              | Some t => clearInterval t rt
              | None => rt
              end).
  set (rt2 := match svc_cleanupInterval svc with
              | Some t => clearInterval t rt1
              | None => rt1
              end).
  destruct (cleanup (clientManager svc) (controllers rt2)) as [m σ].
  simpl. subst rt2 rt1.
  destruct (svc_heartbeatInterval svc) as [th|],
           (svc_cleanupInterval svc) as [tc|]; simpl.
  - destruct (decide (tc = t)) as [->|Htc].
    + rewrite lookup_delete_eq, decide_True; [done|]. by right.
    + rewrite lookup_delete_ne by done.
      destruct (decide (th = t)) as [->|Hth].
      * rewrite lookup_delete_eq, decide_True; [done|]. by left.
      * rewrite lookup_delete_ne by done. rewrite decide_False; [done|].
        intros [[= ?]|[= ?]]; done.
  - destruct (decide (th = t)) as [->|Hth].
    + rewrite lookup_delete_eq, decide_True; [done|]. by left.
    + rewrite lookup_delete_ne by done. rewrite decide_False; [done|].
      intros [[= ?]|?]; done.
  - destruct (decide (tc = t)) as [->|Htc].
    + rewrite lookup_delete_eq, decide_True; [done|]. by right.
    + rewrite lookup_delete_ne by done. rewrite decide_False; [done|].
      intros [?|[= ?]]; done.
  - done.
Qed.

(** [shutdown]: afterwards no handle is registered, the service holds no
    timer, the two intervals it held are cleared and no other interval is,
    the counters are as before; and a second [shutdown] changes nothing. *)
Theorem shutdown_stops_and_clears (svc : SSEService) (rt : Runtime S) :
  let stopped := shutdown svc rt in
  getActiveClientCount stopped.1 = 0
  ∧ svc_heartbeatInterval stopped.1 = None
  ∧ svc_cleanupInterval stopped.1 = None
  ∧ (∀ t, intervals stopped.2 !! t
          = if decide (svc_heartbeatInterval svc = Some t
                       ∨ svc_cleanupInterval svc = Some t)
            then None else intervals rt !! t)
  ∧ metrics (clientManager stopped.1) = metrics (clientManager svc)
  ∧ shutdown stopped.1 stopped.2 = stopped.
Proof.
  intros stopped. subst stopped.
  pose proof (shutdown_intervals svc rt) as Hintervals.
  unfold shutdown, getActiveClientCount, getClientCount in *.
  set (rt1 := match svc_heartbeatInterval svc with
              | Some t => clearInterval t rt
              | None => rt
              end) in *.
  set (rt2 := match svc_cleanupInterval svc with
              | Some t => clearInterval t rt1
              | None => rt1
              end) in *.
  pose proof (cleanup_clients (clientManager svc) (controllers rt2)) as Hclients.
  pose proof (cleanup_metrics (clientManager svc) (controllers rt2)) as Hmetrics.
  destruct (cleanup (clientManager svc) (controllers rt2)) as [m σ] eqn:Hcleanup.
  simpl in *.
  split; [by rewrite Hclients, map_size_empty|]. split; [done|]. split; [done|].
  split; [exact Hintervals|]. split; [done|].
  by rewrite cleanup_empty.
Qed.

(** [reset] clears no interval: an interval that was set before a
    [reset] is still set after it, and still set after the [shutdown] that
    follows, which clears only the two intervals [reset] has set. *)
Theorem reset_keeps_earlier_intervals (svc : SSEService) (rt : Runtime S)
    (t : nat) (i : Interval) :
  intervals rt !! t = Some i →
  (t < nextTimerId rt)%nat →
  intervals (reset svc rt).2 !! t = Some i
  ∧ intervals (shutdown (reset svc rt).1 (reset svc rt).2).2 !! t = Some i.
Proof.
  intros Hset Hbelow.
  assert (intervals (reset svc rt).2 !! t = Some i
          ∧ svc_heartbeatInterval (reset svc rt).1 = Some (nextTimerId rt)
          ∧ svc_cleanupInterval (reset svc rt).1 = Some (nextTimerId rt + 1))
    as (Hreset & Hh & Hc).
  { unfold reset.
    destruct (cleanup (clientManager svc) (controllers rt)) as [m σ]. simpl.
    split; [|done]. rewrite !lookup_insert_ne by lia. done. }
  split; [done|].
  rewrite shutdown_intervals, Hh, Hc, decide_False; [done|].
  intros [[= ?]|[= ?]]; lia.
Qed.

End Lifecycle.

Lemma reset_keeps_earlier_intervals_witness :
  let started := new_SSEService defaultConfig runtime0 in
  intervals (shutdown (reset started.1 started.2).1 (reset started.1 started.2).2).2
    !! 0
  = Some {| callback := HeartbeatLoop; delay_num := 30000; delay_den := 1 |}.
Proof.
  refine (proj2 (reset_keeps_earlier_intervals
                   (new_SSEService defaultConfig runtime0).1
                   (new_SSEService defaultConfig runtime0).2 0
                   {| callback := HeartbeatLoop; delay_num := 30000;
                      delay_den := 1 |} _ _)).
  - by vm_compute.
  - vm_compute. lia.
Defined.

(** * Heartbeat and sweep *)

Section Heartbeat.
Context {S : Type} `{SinkOps S}.
Implicit Type σ : ControllerRef → S.

Lemma removeStaleClients_none_stale (now : Z) (m : SSEClientManager) σ :
  (∀ i c, clients m !! i = Some c →
          (timeSinceLastPing now c ≤ clientTimeoutMs (config m))%Z) →
  removeStaleClients now m σ = (0, m, σ).
Proof.
  intros Hfresh. unfold removeStaleClients.
  assert ((base.filter (λ entry : string * SSEClient,
                          is_stale (config m) now entry.2 = true)
                       (map_to_list (clients m))).*1 = []) as ->; [|done].
  apply elem_of_nil_inv. intros i (c & Hc & Hstale)%stale_ids_spec.
  specialize (Hfresh i c Hc). lia.
Qed.

(** A heartbeat stamps every registered handle, whether or not its sink
    took the heartbeat; a sweep that comes no later than the timeout after
    the stamps evicts nobody. *)
Theorem heartbeat_keeps_handles_registered (now now' since : Z)
    (timestamp : string) (ping : SSEClient → Z)
    (svc : SSEService) (rt : Runtime S) :
  (∀ c, since ≤ ping c)%Z →
  (now' - since ≤ clientTimeoutMs (config (clientManager svc)))%Z →
  let beaten := heartbeat_tick now timestamp ping svc rt in
  let swept := cleanup_tick now' beaten.1 beaten.2 in
  (∀ i c, getClient i (clientManager svc) = Some c →
          getClient i (clientManager beaten.1) = Some (set_lastPing ping c))
  ∧ (removeStaleClients now' (clientManager beaten.1) (controllers beaten.2)).1.1 = 0
  ∧ clients (clientManager swept.1) = clients (clientManager beaten.1)
  ∧ getActiveClientCount swept.1 = getActiveClientCount svc.
Proof.
  intros Hsince Hsoon beaten swept. unfold getClient, getActiveClientCount, getClientCount.
  assert ((∀ i c, clients (clientManager svc) !! i = Some c →
                  clients (clientManager beaten.1) !! i = Some (set_lastPing ping c))
          ∧ (∀ i c', clients (clientManager beaten.1) !! i = Some c' →
                     ∃ c, c' = set_lastPing ping c)
          ∧ config (clientManager beaten.1) = config (clientManager svc)
          ∧ size (clients (clientManager beaten.1))
            = size (clients (clientManager svc))) as (Hstamped & Hall & Hconfig & Hsize).
  { subst beaten. unfold heartbeat_tick.
    pose proof (getAllClients_length (clientManager svc)) as Hlen.
    unfold getClientCount in Hlen.
    destruct (Nat.eqb_spec (length (getAllClients (clientManager svc))) 0)
      as [Hzero|Hsome].
    - assert (clients (clientManager svc) = ∅) as Hempty.
      { apply map_size_empty_iff. lia. }
      simpl. rewrite Hempty. split; [|split; [|done]].
      + intros i c Hc. by rewrite lookup_empty in Hc.
      + intros i c Hc. by rewrite lookup_empty in Hc.
    - destruct (sendEventToClients _ _ (controllers rt)) as [n σ]. simpl.
      split; [|split; [|split; [done|apply map_size_fmap]]].
      + intros i c Hc. by rewrite lookup_fmap, Hc.
      + intros i c'. rewrite lookup_fmap. intros Hc'.
        destruct (clients (clientManager svc) !! i) as [c|]; [|done].
        exists c. simpl in Hc'. congruence. }
  assert (removeStaleClients now' (clientManager beaten.1) (controllers beaten.2)
          = (0, clientManager beaten.1, controllers beaten.2)) as Hsweep.
  { apply removeStaleClients_none_stale. intros i c' Hc'.
    destruct (Hall i c' Hc') as [c ->]. rewrite Hconfig.
    unfold timeSinceLastPing. simpl. specialize (Hsince c). lia. }
  split; [done|]. split; [by rewrite Hsweep|].
  subst swept. unfold cleanup_tick. rewrite Hsweep. simpl.
  split; [done|exact Hsize].
Qed.

End Heartbeat.

Lemma heartbeat_keeps_handles_registered_witness :
  let beaten :=
    heartbeat_tick 200000 "2026-01-01T00:00:00.000Z" (λ _, 200000%Z)
      service_abc.1 (with_controllers service_abc.2 one_closed) in
  getActiveClientCount (cleanup_tick 320000 beaten.1 beaten.2).1 = 3.
Proof.
  refine (proj2 (proj2 (proj2
            (heartbeat_keeps_handles_registered 200000 320000 200000
               "2026-01-01T00:00:00.000Z" (λ _, 200000%Z)
               service_abc.1 (with_controllers service_abc.2 one_closed) _ _)))).
  - intros _. lia.
  - vm_compute. discriminate.
Defined.

(** Without the heartbeat the same sweep evicts all three handles. *)
Example sweep_without_heartbeat :
  getActiveClientCount
    (cleanup_tick 320000 service_abc.1
       (with_controllers service_abc.2 one_closed)).1 = 0.
Proof. by vm_compute. Qed.

(** * The text of a message *)

Lemma count_LF_append (s t : string) :
  JS.count_LF (s +:+ t) = JS.count_LF s + JS.count_LF t.
Proof.
  induction s as [|c s IH]; [done|].
  rewrite append_cons. simpl. rewrite IH. lia.
Qed.

Lemma Number_toString_no_LF (n : Z) : JS.count_LF (JS.Number_toString n) = 0.
Proof.
  assert (∀ d, JS.count_LF (NilEmpty.string_of_uint d) = 0) as Hdigits.
  { induction d; simpl; done. }
  assert (∀ d, JS.count_LF (NilZero.string_of_uint d) = 0) as Huint.
  { intros d. destruct d; try apply Hdigits. done. }
  unfold JS.Number_toString, NilZero.string_of_int.
  destruct (Z.to_int n); simpl; by rewrite Huint.
Qed.

Lemma quote_char_no_LF (c : ascii) : JS.count_LF (JS.quote_char c) = 0.
Proof. destruct c as [[] [] [] [] [] [] [] []]; by vm_compute. Qed.

Lemma quote_no_LF (s : string) : JS.count_LF (JS.quote s) = 0.
Proof.
  unfold JS.quote. rewrite !count_LF_append.
  assert (JS.count_LF (JS.quote_chars s) = 0) as ->; [|done].
  induction s as [|c s IH]; [done|].
  simpl. by rewrite count_LF_append, quote_char_no_LF, IH.
Qed.

Lemma comma_join_no_LF (parts : list string) :
  Forall (λ p, JS.count_LF p = 0) parts → JS.count_LF (JS.comma_join parts) = 0.
Proof.
  destruct 1 as [|p ps Hp Hps]; [done|]. simpl.
  revert p Hp. induction Hps as [|q qs Hq Hqs IH]; intros p Hp; [done|].
  simpl. apply IH. by rewrite !count_LF_append, Hp, Hq.
Qed.

Lemma JSON_stringify_no_LF (v : JS.JSON) : JS.count_LF (JS.JSON_stringify v) = 0.
Proof.
  revert v. fix IH 1. intros [|[]|n|s|xs|props]; simpl; try done.
  - apply Number_toString_no_LF.
  - apply quote_no_LF.
  - rewrite !count_LF_append, comma_join_no_LF; [done|].
    induction xs as [|x xs IHxs]; constructor; [apply IH | apply IHxs].
  - rewrite !count_LF_append, comma_join_no_LF; [done|].
    induction props as [|[k x] props IHprops]; constructor; [|apply IHprops].
    change (JS.count_LF (JS.quote k +:+ ":" +:+ JS.JSON_stringify x) = 0).
    by rewrite !count_LF_append, quote_no_LF, IH.
Qed.

Lemma split_lines_cons (line rest : string) :
  JS.count_LF line = 0 →
  JS.split_lines (line +:+ JS.nl +:+ rest) = line :: JS.split_lines rest.
Proof.
  intros Hline. induction line as [|c line IH].
  - done.
  - rewrite append_cons. simpl in *.
    destruct (Ascii.eqb c JS.LF); [done|]. by rewrite IH.
Qed.

(** A payload that is not a string is written on one [data:] line,
    whatever strings it holds: [JSON.stringify] writes no line feed, the
    line feeds of the strings inside the payload are escaped. *)
Theorem structured_payload_on_one_line :
  (∀ v : JS.JSON, JS.count_LF (JS.JSON_stringify v) = 0)
  ∧ ∀ event : SSEEvent,
      (∀ s, data event ≠ JS.JString s) →
      formatSSEMessage event
      = wire_event_line event +:+ wire_id_line event +:+ wire_retry_line event
        +:+ ("data: " +:+ JS.JSON_stringify (data event) +:+ JS.nl) +:+ JS.nl.
Proof.
  split; [apply JSON_stringify_no_LF|]. intros event Hstructured.
  rewrite formatSSEMessage_fields. unfold wire_message, wire_data_lines.
  assert (serialize_data (data event) = JS.JSON_stringify (data event)) as ->.
  { destruct (data event) as [| | | s | |]; try done. by destruct (Hstructured s). }
  rewrite split_lines_single by apply JSON_stringify_no_LF.
  simpl. unfold data_line. by rewrite append_empty_r.
Qed.

Lemma structured_payload_on_one_line_witness :
  formatSSEMessage
    {| type := "note";
       data := JS.JArray [JS.JString ("two" +:+ JS.nl +:+ "lines")];
       event_id := None; retry := None |}
  = "event: note" +:+ JS.nl
    +:+ "data: [" +:+ JS.dq +:+ "two\nlines" +:+ JS.dq +:+ "]" +:+ JS.nl
    +:+ JS.nl.
Proof.
  refine (proj2 structured_payload_on_one_line
            {| type := "note";
               data := JS.JArray [JS.JString ("two" +:+ JS.nl +:+ "lines")];
               event_id := None; retry := None |} _).
  intros s. simpl. discriminate.
Defined.

(** The message of an event whose type and id hold no line feed, read
    line by line: the field lines, one [data:] line for each line of the
    payload, and then the one empty line that ends the message.  No line
    before the end is empty. *)
Theorem formatSSEMessage_lines (event : SSEEvent) :
  JS.count_LF (type event) = 0 →
  (∀ i, event_id event = Some i → JS.count_LF i = 0) →
  JS.split_lines (formatSSEMessage event) = wire_lines event
  ∧ ∃ lines, wire_lines event = (lines ++ [EmptyString; EmptyString])%list
             ∧ Forall (λ line, line ≠ EmptyString) lines.
Proof.
  intros Htype Hid. split.
  - rewrite formatSSEMessage_fields. unfold wire_message, wire_lines, wire_data_lines.
    set (payload := JS.split_lines (serialize_data (data event))).
    assert (∀ (lines : list string) (rest : string),
              Forall (λ line, JS.count_LF line = 0) lines →
              JS.split_lines (concat_strings (data_line <$> lines) +:+ rest)
              = (((λ line, "data: " +:+ line) <$> lines) ++ JS.split_lines rest)%list)
      as Hdata.
    { intros lines rest. induction 1 as [|line lines Hline Hlines IH]; [done|].
      rewrite !fmap_cons.
      change (concat_strings (data_line line :: (data_line <$> lines)))
        with (data_line line +:+ concat_strings (data_line <$> lines)).
      unfold data_line at 1.
      rewrite !append_assoc.
      rewrite <- (append_assoc "data: " line).
      rewrite split_lines_cons by (by rewrite count_LF_append, Hline).
      by rewrite IH. }
    assert (JS.split_lines (concat_strings (data_line <$> payload) +:+ JS.nl)
            = (((λ line, "data: " +:+ line) <$> payload)
               ++ [EmptyString; EmptyString])%list) as Htail.
    { rewrite Hdata by apply split_lines_no_LF. done. }
    assert (∀ prefix line rest,
              JS.count_LF prefix = 0 → JS.count_LF line = 0 →
              JS.split_lines ((prefix +:+ line +:+ JS.nl) +:+ rest)
              = (prefix +:+ line) :: JS.split_lines rest) as Hfield.
    { intros prefix line rest Hprefix Hline.
      rewrite <- (append_assoc prefix line JS.nl), append_assoc.
      apply split_lines_cons. by rewrite count_LF_append, Hprefix, Hline. }
    unfold wire_event_line, wire_id_line, wire_retry_line.
    clearbody payload. destruct event as [t d i r]. simpl in *.
    destruct t as [|c t]; destruct i as [[|c' i]|]; destruct r as [r|];
      try destruct (decide (r = 0%Z));
      repeat first
        [ rewrite append_empty_l
        | rewrite Hfield
            by first [done | apply Number_toString_no_LF | by apply Hid] ];
      by rewrite Htail.
  - unfold wire_lines. eexists. rewrite !app_assoc. split; [done|].
    repeat apply Forall_app_2.
    + destruct (type event); by repeat constructor.
    + destruct (event_id event) as [[|]|]; by repeat constructor.
    + destruct (retry event) as [r|]; [|constructor].
      case_decide; by repeat constructor.
    + apply Forall_fmap, Forall_true. by intros line.
Qed.

Lemma formatSSEMessage_lines_witness :
  JS.split_lines (formatSSEMessage two_line_event)
  = ["event: message"; "data: line1"; "data: line2"; EmptyString; EmptyString].
Proof.
  refine (proj1 (formatSSEMessage_lines two_line_event _ _)).
  - reflexivity.
  - intros i. simpl. discriminate.
Defined.

(** A line feed in the type is not escaped: the reader meets a [data:]
    line that is no line of the payload. *)
Example type_with_line_feed_adds_a_line :
  JS.split_lines (formatSSEMessage injecting_event)
  = ["event: a"; "data: forged"; "data: real"; EmptyString; EmptyString].
Proof. reflexivity. Qed.

Lemma formatSSEMessage_one_line (event : SSEEvent) :
  JS.count_LF (serialize_data (data event)) = 0 →
  formatSSEMessage event
  = wire_event_line event +:+ wire_id_line event +:+ wire_retry_line event
    +:+ ("data: " +:+ serialize_data (data event) +:+ JS.nl) +:+ JS.nl.
Proof.
  intros Hline. rewrite formatSSEMessage_fields.
  unfold wire_message, wire_data_lines. rewrite split_lines_single by done.
  simpl. unfold data_line. by rewrite append_empty_r.
Qed.

(** The events the dispatcher makes itself, on the wire: the event line
    with the name, the id line with the name and the time, and one
    [data:] line with the object, whatever the timestamp and the message
    are; an error event made without a code says [UNKNOWN_ERROR]. *)
Theorem well_known_events_text (now : Z) (timestamp message : string)
    (code : option string) :
  formatSSEMessage (createHeartbeatEvent now timestamp)
  = ("event: heartbeat" +:+ JS.nl)
    +:+ ("id: " +:+ ("heartbeat-" +:+ JS.Number_toString now) +:+ JS.nl)
    +:+ ("data: "
         +:+ ("{" +:+ (JS.quote "timestamp" +:+ ":" +:+ JS.quote timestamp) +:+ "}")
         +:+ JS.nl)
    +:+ JS.nl
  ∧ formatSSEMessage (createConnectionEvent now timestamp)
    = ("event: connection" +:+ JS.nl)
      +:+ ("id: " +:+ ("connection-" +:+ JS.Number_toString now) +:+ JS.nl)
      +:+ ("data: "
           +:+ ("{" +:+ ((JS.quote "status" +:+ ":" +:+ JS.quote "connected")
                         +:+ ","
                         +:+ (JS.quote "timestamp" +:+ ":" +:+ JS.quote timestamp))
                +:+ "}")
           +:+ JS.nl)
      +:+ JS.nl
  ∧ formatSSEMessage (createErrorEvent now timestamp message code)
    = ("event: error" +:+ JS.nl)
      +:+ ("id: " +:+ ("error-" +:+ JS.Number_toString now) +:+ JS.nl)
      +:+ ("data: "
           +:+ ("{" +:+ (((JS.quote "message" +:+ ":" +:+ JS.quote message)
                          +:+ ","
                          +:+ (JS.quote "code" +:+ ":"
                               +:+ JS.quote (default "UNKNOWN_ERROR" code)))
                         +:+ ","
                         +:+ (JS.quote "timestamp" +:+ ":" +:+ JS.quote timestamp))
                +:+ "}")
           +:+ JS.nl)
      +:+ JS.nl.
Proof.
  split; [|split];
    (rewrite formatSSEMessage_one_line by apply JSON_stringify_no_LF);
    reflexivity.
Qed.

(** * Creating a client *)

Section CreateClientFacts.
Context {S : Type} `{StreamOps S}.

(** [createClient] on a full registry: the capacity error is thrown to the
    caller, no handle is registered and no counter moves, the stream that
    was constructed is put in error, and no other controller is touched. *)
Theorem createClient_at_capacity (clientId : string) (r : ControllerRef)
    (connected now : Z) (timestamp : string) (user session : option string)
    (svc : SSEService) (rt : Runtime S) :
  (maxClients (config (clientManager svc))
   ≤ Z.of_nat (getClientCount (clientManager svc)))%Z →
  let created :=
    createClient clientId r connected now timestamp user session svc rt in
  created.1.1
  = Thrown (Error ("Maximum client limit reached: "
                     +:+ JS.Number_toString (maxClients (config (clientManager svc)))))
  ∧ clientManager created.1.2 = clientManager svc
  ∧ controllers created.2 r = error new_controller
  ∧ ∀ r', r' ≠ r → controllers created.2 r' = controllers rt r'.
Proof.
  unfold getClientCount, createClient, addClient. intros Hfull.
  destruct (Z.leb_spec (maxClients (config (clientManager svc)))
              (Z.of_nat (size (clients (clientManager svc))))); [|lia].
  simpl. split; [done|]. split; [done|]. split.
  - by rewrite !fn_lookup_insert.
  - intros r' Hr'. by rewrite !fn_lookup_insert_ne.
Qed.

(** [createClient] with room left and an id that is free: the handle
    returned is the one registered under the id, with the user and the
    session given and no [lastPing]; the registry has one handle more and
    stays exact; the first thing written to the new stream is the
    connection event; no other controller is touched. *)
Theorem createClient_registers (clientId : string) (r : ControllerRef)
    (connected now : Z) (timestamp : string) (user session : option string)
    (svc : SSEService) (rt : Runtime S) :
  (Z.of_nat (getClientCount (clientManager svc))
   < maxClients (config (clientManager svc)))%Z →
  getClient clientId (clientManager svc) = None →
  let created :=
    createClient clientId r connected now timestamp user session svc rt in
  let client :=
    {| id := clientId; userId := user; sessionId := session; controller := r;
       connectedAt := connected; lastPing := None |} in
  created.1.1 = Returned client
  ∧ getClient clientId (clientManager created.1.2) = Some client
  ∧ getActiveClientCount created.1.2 = getActiveClientCount svc + 1
  ∧ (registry_consistent (clientManager svc) →
     registry_consistent (clientManager created.1.2))
  ∧ controllers created.2 r
    = after_write (createConnectionEvent now timestamp) new_controller
  ∧ ∀ r', r' ≠ r → controllers created.2 r' = controllers rt r'.
Proof.
  unfold getActiveClientCount, getClientCount, getClient. intros Hroom Hfree.
  unfold createClient. cbv zeta.
  set (client := {| id := clientId; userId := user; sessionId := session;
                    controller := r; connectedAt := connected;
                    lastPing := None |}).
  pose proof (addClient_consistent client (clientManager svc) Hfree) as Hcons.
  pose proof (sendEventToClient_store client (createConnectionEvent now timestamp)
                (<[r := new_controller]> (controllers rt))) as Hstore.
  unfold addClient in *.
  destruct (Z.leb_spec (maxClients (config (clientManager svc)))
              (Z.of_nat (size (clients (clientManager svc))))); [lia|].
  simpl in *.
  destruct (sendEventToClient client _ _) as [ok σ']. simpl in *.
  unfold getClient. simpl. rewrite lookup_insert_eq. simpl.
  split; [done|]. split; [apply lookup_insert_eq|]. split.
  { rewrite map_size_insert_None by done. lia. }
  split; [done|]. split.
  - by rewrite Hstore, decide_True, fn_lookup_insert.
  - intros r' Hr'. rewrite Hstore, decide_False by done.
    by rewrite fn_lookup_insert_ne.
Qed.

End CreateClientFacts.

Lemma createClient_at_capacity_witness :
  (createClient "n" 7 9000 9000 "2026-01-01T00:00:09.000Z" (Some "u1") None
     (with_manager service_abc.1 full_registry) service_abc.2).1.1
  = Thrown (Error "Maximum client limit reached: 1").
Proof.
  refine (proj1 (createClient_at_capacity "n" 7 9000 9000
                   "2026-01-01T00:00:09.000Z" (Some "u1") None
                   (with_manager service_abc.1 full_registry) service_abc.2 _)).
  vm_compute. discriminate.
Defined.

Lemma createClient_registers_witness :
  getActiveClientCount
    (createClient "n" 7 9000 9000 "2026-01-01T00:00:09.000Z" (Some "u1") None
       service_abc.1 service_abc.2).1.2
  = getActiveClientCount service_abc.1 + 1.
Proof.
  refine (proj1 (proj2 (proj2
            (createClient_registers "n" 7 9000 9000 "2026-01-01T00:00:09.000Z"
               (Some "u1") None service_abc.1 service_abc.2 _ _)))).
  - vm_compute. reflexivity.
  - vm_compute. reflexivity.
Defined.

(** * The POST handler *)

Section RouteFacts.
Context {S : Type} `{SinkOps S}.

Lemma truthy_None (o : option string) :
  JS.truthy o = None ↔ o = None ∨ o = Some EmptyString.
Proof.
  destruct o as [[|c t]|]; simpl.
  - split; [by right|done].
  - split; [done|]. by intros [?|?].
  - split; [by left|done].
Qed.

Lemma JSON_truthy_spec (payload : JS.JSON) :
  JSON_truthy payload = false
  ↔ payload = JS.JNull ∨ payload = JS.JBool false ∨ payload = JS.JNumber 0
    ∨ payload = JS.JString EmptyString.
Proof.
  destruct payload as [|[]|n|[|c s]|xs|props]; simpl.
  - split; [by left|done].
  - split; [done|]. by intros [?|[?|[?|?]]].
  - split; [by right; left|done].
  - destruct (Z.eqb_spec n 0) as [->|Hn]; simpl.
    + split; [by right; right; left|done].
    + split; [done|]. intros [?|[?|[[= ?]|?]]]; done.
  - split; [by right; right; right|done].
  - split; [done|]. by intros [?|[?|[?|?]]].
  - split; [done|]. by intros [?|[?|[?|?]]].
  - split; [done|]. by intros [?|[?|[?|?]]].
Qed.

(** [POST]: without a signed-in user the answer is 401; with one, a body
    whose [event] is missing or empty, or whose [data] is missing or falsy
    ([null], [false], [0], the empty string), gets 400; in both cases
    nothing is sent and the service is as it was.  A body with an event,
    a truthy payload and no selector is broadcast: the event is written to
    the sink of every registered handle, [eventsDispatched] grows by one
    (with no handle registered nothing changes), the service and the
    runtime are those [broadcast] leaves, and the answer carries the count
    of the broadcast. *)
Theorem route_POST_answers (session_user : option string) (b : PostBody)
    (now : Z) (svc : SSEService) (rt : Runtime S) :
  (session_user = None ∨ session_user = Some EmptyString →
   route_POST session_user (Returned b) now svc rt
   = (StatusResponse 401 "Unauthorized", svc, rt))
  ∧ (∀ user, session_user = Some user → user ≠ EmptyString →
     body_event b = None ∨ body_event b = Some EmptyString
     ∨ body_data b = None ∨ body_data b = Some JS.JNull
     ∨ body_data b = Some (JS.JBool false)
     ∨ body_data b = Some (JS.JNumber 0)
     ∨ body_data b = Some (JS.JString EmptyString) →
     route_POST session_user (Returned b) now svc rt
     = (StatusResponse 400 "Missing event or data", svc, rt))
  ∧ (∀ user, session_user = Some user → user ≠ EmptyString →
     ∀ event payload,
       body_event b = Some event → event ≠ EmptyString →
       body_data b = Some payload →
       payload ≠ JS.JNull → payload ≠ JS.JBool false →
       payload ≠ JS.JNumber 0 → payload ≠ JS.JString EmptyString →
       body_clientIds b = None →
       body_userId b = None ∨ body_userId b = Some EmptyString →
       body_sessionId b = None ∨ body_sessionId b = Some EmptyString →
       let sseEvent :=
         {| type := event; data := payload;
            event_id := Some (event +:+ "-" +:+ JS.Number_toString now);
            retry := None |} in
       let sent := sendEventToClients (getAllClients (clientManager svc))
                     sseEvent (controllers rt) in
       let answered := route_POST session_user (Returned b) now svc rt in
       answered
       = (if Nat.eqb (getClientCount (clientManager svc)) 0
          then (SentResponse 0 sseEvent, svc, rt)
          else (SentResponse sent.1 sseEvent,
                with_manager svc (incrementEventsDispatched (clientManager svc)),
                with_controllers rt sent.2))
       ∧ answered.1.2 = (broadcast sseEvent svc rt).1.2
       ∧ answered.2 = (broadcast sseEvent svc rt).2
       ∧ ∃ successCount,
           (broadcast sseEvent svc rt).1.1 = Returned successCount
           ∧ answered.1.1 = SentResponse successCount sseEvent).
Proof.
  unfold route_POST. split; [|split].
  - intros Hnobody. apply truthy_None in Hnobody. by rewrite Hnobody.
  - intros user -> Huser Hbad.
    assert (JS.truthy (Some user) = Some user) as -> by (by apply truthy_Some).
    destruct Hbad as [Hevent|[Hevent|Hdata]].
    + by rewrite Hevent.
    + by rewrite Hevent.
    + destruct (JS.truthy (body_event b)); [|done].
      destruct Hdata as [->|Hfalsy]; [done|].
      assert (∃ payload, body_data b = Some payload
                         ∧ JSON_truthy payload = false) as (payload & Hp & Ht);
        [|by rewrite Hp, Ht].
      destruct Hfalsy as [-> | [-> | [-> | ->]]]; eexists; (split; [done|]);
        apply JSON_truthy_spec; tauto.
  - intros user -> Huser event payload He Hevent Hd Hnull Hfalse Hzero Hempty
      Hc Hu Hs. cbv zeta.
    assert (JS.truthy (Some user) = Some user) as -> by (by apply truthy_Some).
    assert (JS.truthy (body_event b) = Some event) as ->.
    { rewrite He. by apply truthy_Some. }
    assert (JSON_truthy payload = true) as Htruthy.
    { destruct (JSON_truthy payload) eqn:E; [done|].
      apply JSON_truthy_spec in E as [?|[?|[?|?]]]; done. }
    apply truthy_None in Hu, Hs. rewrite Hd, Htruthy, Hc, Hu, Hs.
    unfold broadcast, sendEvent, sendEvent_with, dispatcher_fanout.
    rewrite getAllClients_length.
    destruct (getClientCount (clientManager svc) =? 0)%nat.
    { repeat (split; [done|]). by exists 0. }
    destruct (sendEventToClients _ _ (controllers rt)) as [n σ']. simpl.
    repeat (split; [done|]). by exists n.
Qed.

End RouteFacts.

Lemma route_POST_answers_witness :
  route_POST (Some "admin")
    (Returned {| body_event := Some "ping"; body_data := Some JS.JNull;
                 body_userId := None; body_sessionId := None;
                 body_clientIds := None |})
    7000 service_abc.1 service_abc.2
  = (StatusResponse 400 "Missing event or data", service_abc.1, service_abc.2)
  ∧ (route_POST (Some "admin")
       (Returned {| body_event := Some "ping";
                    body_data := Some (JS.JObject [("n", JS.JNumber 0)]);
                    body_userId := Some EmptyString; body_sessionId := None;
                    body_clientIds := None |})
       7000 service_abc.1 service_abc.2).2
    = (broadcast
         {| type := "ping"; data := JS.JObject [("n", JS.JNumber 0)];
            event_id := Some "ping-7000"; retry := None |}
         service_abc.1 service_abc.2).2.
Proof.
  split.
  - refine (proj1 (proj2
              (route_POST_answers (Some "admin")
                 {| body_event := Some "ping"; body_data := Some JS.JNull;
                    body_userId := None; body_sessionId := None;
                    body_clientIds := None |}
                 7000 service_abc.1 service_abc.2)) "admin" eq_refl _ _).
    + discriminate.
    + right. right. right. left. reflexivity.
  - refine (proj1 (proj2 (proj2 (proj2 (proj2
              (route_POST_answers (Some "admin")
                 {| body_event := Some "ping";
                    body_data := Some (JS.JObject [("n", JS.JNumber 0)]);
                    body_userId := Some EmptyString; body_sessionId := None;
                    body_clientIds := None |}
                 7000 service_abc.1 service_abc.2))
              "admin" eq_refl _ "ping" (JS.JObject [("n", JS.JNumber 0)])
              eq_refl _ eq_refl _ _ _ _ eq_refl _ _)))).
    + discriminate.
    + discriminate.
    + discriminate.
    + discriminate.
    + discriminate.
    + discriminate.
    + right. reflexivity.
    + left. reflexivity.
Defined.

(** On the service with three open sinks the broadcast of a POST reaches
    all three. *)
Example route_POST_broadcast_abc :
  (route_POST (Some "admin")
     (Returned {| body_event := Some "ping";
                  body_data := Some (JS.JObject [("n", JS.JNumber 0)]);
                  body_userId := None; body_sessionId := None;
                  body_clientIds := None |})
     7000 service_abc.1 service_abc.2).1.1
  = SentResponse 3
      {| type := "ping"; data := JS.JObject [("n", JS.JNumber 0)];
         event_id := Some "ping-7000"; retry := None |}.
Proof. by vm_compute. Qed.
